(** * The bearer-token transport of go-containerregistry

    A shallow embedding of
    [vendor/github.com/google/go-containerregistry/pkg/v1/remote/transport/bearer.go]
    and the properties of its request dispatcher ([RoundTrip]), its token
    refresh ([refresh], [refreshOauth], [refreshBasic]) and its host
    canonicalization ([canonicalAddress]).

    Go strings and byte slices are sequences of bytes: both are [string]
    here.  Maps ([http.Header], [url.Values], [portMap]) are [gmap]s with
    string keys.  Everything the file reaches through a pointer that it
    mutates ([bt], [in]) lives in an explicit machine state. *)

From Stdlib Require Import Ascii.
From stdpp Require Import gmap strings list.

(** ** Go strings *)

Module GoString.

(** [[]byte] and [string] share one representation. *)
Definition bytes := string.

(** [bytealg.CountString(s, c)]: [strings.Count(s, substr)] takes this
    path whenever [substr] is a single byte. *)
Fixpoint CountString (s : string) (c : ascii) : nat :=
  match s with
  | "" => 0
  | String a s' => (if Ascii.eqb a c then 1 else 0) + CountString s' c
  end.

(** [bytealg.IndexByteString(s, c)]; [None] stands for Go's [-1]. *)
Fixpoint IndexByteString (s : string) (c : ascii) : option nat :=
  match s with
  | "" => None
  | String a s' =>
      if Ascii.eqb a c then Some 0
      else match IndexByteString s' c with
           | Some i => Some (S i)
           | None => None
           end
  end.

(** [net.last(s, c)]: index of the last occurrence of [c]. *)
Fixpoint last (s : string) (c : ascii) : option nat :=
  match s with
  | "" => None
  | String a s' =>
      match last s' c with
      | Some i => Some (S i)
      | None => if Ascii.eqb a c then Some 0 else None
      end
  end.

(** [strings.Contains(s, substr)]. *)
Fixpoint Contains (s substr : string) : bool :=
  String.prefix substr s ||
  match s with
  | "" => false
  | String _ s' => Contains s' substr
  end.

(** The slices [s[:n]] and [s[n:]] (indices in range). *)
Fixpoint slice_to (n : nat) (s : string) : string :=
  match n, s with
  | S n', String a s' => String a (slice_to n' s')
  | _, _ => ""
  end.

Fixpoint slice_from (n : nat) (s : string) : string :=
  match n, s with
  | S n', String _ s' => slice_from n' s'
  | _, _ => s
  end.

(** [s[i:j]]. *)
Definition slice (i j : nat) (s : string) : string :=
  slice_to (j - i) (slice_from i s).

(** [strings.Join(elems, sep)]. *)
Definition Join (elems : list string) (sep : string) : string :=
  String.concat sep elems.

(** The single bytes the code looks for, and the newline of its error
    message. *)
Definition byte_colon : ascii := ":"%char.
Definition byte_lbrack : ascii := "["%char.
Definition byte_rbrack : ascii := "]"%char.
Definition newline : string := String (ascii_of_nat 10) "".

End GoString.
Import GoString.

(** ** Errors and results *)

(** Go's [error] values met on these paths. *)
Inductive error : Type :=
  | AddrError (why addr : string)        (* net.AddrError *)
  | Errorf (msg : string)                (* fmt.Errorf *)
  | StatusError (code : Z) (body : bytes) (* transport.Error, from CheckError *)
  | OtherError (msg : string).           (* raised by a collaborator *)

(** A Go return pair [(value, err)]. *)
Inductive result (A : Type) : Type :=
  | Ok (a : A)
  | Err (e : error).
Arguments Ok {A} a.
Arguments Err {A} e.

(** ** The [net] package: host and port *)

Module net.

(** The closure [addrErr] of [SplitHostPort]: the address errors carry
    the reason and the offending address. *)
Definition addrErr {A : Type} (addr why : string) : result A :=
  Err (AddrError why addr).

(** [net.SplitHostPort], from the Go standard library ([net/ipsock.go]).
    [j] and [k] are the positions from which a stray bracket is looked
    for. *)
Definition SplitHostPort (hostport : string) : result (string * string) :=
  let missingPort := "missing port in address" in
  let tooManyColons := "too many colons in address" in
  (* The port starts after the last colon. *)
  match last hostport byte_colon with
  | None => addrErr hostport missingPort
  | Some i =>
      let bracketed :=
        if bool_decide (String.get 0 hostport = Some byte_lbrack) then
          (* Expect the first ']' just before the last ':'. *)
          match IndexByteString hostport byte_rbrack with
          | None => addrErr hostport "missing ']' in address"
          | Some end_ =>
              if bool_decide (end_ + 1 = String.length hostport) then
                addrErr hostport missingPort
              else if bool_decide (end_ + 1 = i) then
                Ok (slice 1 end_ hostport, 1, end_ + 1)
              else if bool_decide
                        (String.get (end_ + 1) hostport = Some byte_colon)
              then addrErr hostport tooManyColons
              else addrErr hostport missingPort
          end
        else
          let host := slice_to i hostport in
          match IndexByteString host byte_colon with
          | Some _ => addrErr hostport tooManyColons
          | None => Ok (host, 0, 0)
          end
      in
      match bracketed with
      | Err e => Err e
      | Ok (host, j, k) =>
          match IndexByteString (slice_from j hostport) byte_lbrack with
          | Some _ => addrErr hostport "unexpected '[' in address"
          | None =>
              match IndexByteString (slice_from k hostport) byte_rbrack with
              | Some _ => addrErr hostport "unexpected ']' in address"
              | None => Ok (host, slice_from (i + 1) hostport)
              end
          end
      end
  end.

(** [net.JoinHostPort]: a host with a colon is taken for a literal IPv6
    address and bracketed. *)
Definition JoinHostPort (host port : string) : string :=
  match IndexByteString host byte_colon with
  | Some _ => "[" +:+ host +:+ "]:" +:+ port
  | None => host +:+ ":" +:+ port
  end.

End net.

(** ** HTTP data: URLs, forms, requests and responses *)

Module url.

(** The fields of [url.URL] that the transport reads or writes. *)
Record URL : Type := mkURL {
  Scheme : string;
  Host : string;
  Path : string;
  RawQuery : string
}.

Definition set_Scheme (s : string) (u : URL) : URL :=
  {| Scheme := s; Host := Host u; Path := Path u; RawQuery := RawQuery u |}.

Definition set_RawQuery (q : string) (u : URL) : URL :=
  {| Scheme := Scheme u; Host := Host u; Path := Path u; RawQuery := q |}.

(** [url.Values] is [map[string][]string]. *)
Abbreviation Values := (gmap string (list string)).

(** [v.Set(key, value)] replaces whatever [key] held. *)
Definition Set_ (key value : string) (v : Values) : Values :=
  <[key := [value]]> v.

End url.

Module http.

(** [http.Header] is [map[string][]string]. *)
Abbreviation Header := (gmap string (list string)).

(** [h.Set(key, value)]; the two keys set by the transport,
    [Authorization] and [User-Agent], are in canonical MIME form
    already. *)
Definition Header_Set (key value : string) (h : Header) : Header :=
  <[key := [value]]> h.

Record Request : Type := mkRequest {
  Method : string;
  URL : url.URL;
  Header_ : Header;
  Host : string;
  Body : bytes
}.

Definition set_Header (h : Header) (r : Request) : Request :=
  {| Method := Method r; URL := URL r; Header_ := h; Host := Host r;
     Body := Body r |}.

Definition set_URL (u : url.URL) (r : Request) : Request :=
  {| Method := Method r; URL := u; Header_ := Header_ r; Host := Host r;
     Body := Body r |}.

(** A response: its status, and what draining its body gives (the bytes
    read and the read error, if any). *)
Record Response : Type := mkResponse {
  StatusCode : Z;
  RespBody : bytes;
  ReadErr : option error
}.

Definition StatusOK : Z := 200.
Definition StatusUnauthorized : Z := 401.

End http.

Module ioutil.
(** [ioutil.ReadAll(resp.Body)]. *)
Definition ReadAll (resp : http.Response) : result bytes :=
  match http.ReadErr resp with
  | None => Ok (http.RespBody resp)
  | Some e => Err e
  end.
End ioutil.

(** ** Credentials (package [authn]) and the registry name *)

Module authn.

(** Modelled from the spec: [authn.AuthConfig] is declared outside this
    file; the authorization materials are a username, a password and an
    identity token, and the registry token that the bearer credential
    hands out. *)
Record AuthConfig : Type := mkAuthConfig {
  Username : string;
  Password : string;
  IdentityToken : string;
  RegistryToken : string
}.

(** Modelled from the spec: [authn.Bearer], the Bearer Credential, holds
    a single opaque token string. *)
Record Bearer : Type := mkBearer { Token : string }.

(** Modelled from the spec: the authorization of a Bearer Credential is
    its token. *)
Definition Bearer_Authorization (b : Bearer) : result AuthConfig :=
  Ok {| Username := ""; Password := ""; IdentityToken := "";
        RegistryToken := Token b |}.

Section Authenticators.
Context {W : Type}.

(** Modelled from the spec: [authn.Authenticator] is the capability
    [authorization() -> materials | error]; a provider may consult
    the outside world [W]. *)
Definition Authenticator : Type := W -> result AuthConfig * W.

(** Modelled from the spec: [authn.FromConfig] builds the credential
    that answers with the given materials. *)
Definition FromConfig (cfg : AuthConfig) : Authenticator :=
  fun w => (Ok cfg, w).
End Authenticators.
Arguments Authenticator W : clear implicits.

End authn.

Module name.
(** Modelled from the spec: [name.Registry] is the Authentication
    Target's host identity; [RegistryStr()] gives the host string. *)
Record Registry : Type := mkRegistry { RegistryStr : string }.
End name.

(** ** The transport and its collaborators *)

(** [http.RoundTripper]: one HTTP exchange against the outside world.  By
    the interface's contract it does not modify the request. *)
Definition RoundTripper (W : Type) : Type :=
  http.Request -> W -> result http.Response * W.

(** The struct [tokenResponse] declared inside [refresh]. *)
Record tokenResponse : Type := mkTokenResponse {
  Token : string;
  AccessToken : string;
  RefreshToken : string
}.

Definition set_Token (t : string) (r : tokenResponse) : tokenResponse :=
  {| Token := t; AccessToken := AccessToken r; RefreshToken := RefreshToken r |}.

(** What the file takes from the Go standard library and from the rest of
    its package. *)
Class Collaborators (W : Type) : Type := {
  (** [url.Parse] and the [String] method of [url.URL] *)
  url_Parse : string -> result url.URL;
  URL_String : url.URL -> string;
  (** [url.Values.Encode] *)
  Values_Encode : url.Values -> string;
  (** [json.Unmarshal(content, &response)] into a zero [tokenResponse] *)
  json_Unmarshal : bytes -> result tokenResponse;
  (** [http.Client{Transport: t}.PostForm(url, data)] and [.Get(url)] *)
  Client_PostForm : RoundTripper W -> string -> url.Values -> W ->
                    result http.Response * W;
  Client_Get : RoundTripper W -> string -> W -> result http.Response * W;
  (** [&basicTransport{inner, auth, target}], the Basic-auth decorator *)
  basicTransport : RoundTripper W -> authn.Authenticator W -> string ->
                   RoundTripper W;
  (** the constant [transportName] *)
  transportName : string
}.

(** Modelled from the spec: [CheckError(resp, code)], the error classifier,
    accepts the expected status and turns any other into a classified
    error with the response's status and body as detail. *)
Definition CheckError (resp : http.Response) (code : Z) : option error :=
  if bool_decide (http.StatusCode resp = code) then None
  else Some (StatusError (http.StatusCode resp) (http.RespBody resp)).

Record bearerTransport (W : Type) : Type := mkBearerTransport {
  (* Wrapped by bearerTransport. *)
  inner : RoundTripper W;
  (* Basic credentials that we exchange for bearer tokens. *)
  basic : authn.Authenticator W;
  (* Holds the bearer response from the token service. *)
  bearer : authn.Bearer;
  (* Registry to which we send bearer tokens. *)
  registry : name.Registry;
  realm : string;
  service : string;
  scopes : list string;
  (* Scheme we should use, determined by ping response. *)
  scheme : string
}.
Arguments inner {W} _.
Arguments basic {W} _.
Arguments bearer {W} _.
Arguments registry {W} _.
Arguments realm {W} _.
Arguments service {W} _.
Arguments scopes {W} _.
Arguments scheme {W} _.

Definition set_basic {W} (a : authn.Authenticator W) (bt : bearerTransport W)
  : bearerTransport W :=
  {| inner := inner bt; basic := a; bearer := bearer bt;
     registry := registry bt; realm := realm bt; service := service bt;
     scopes := scopes bt; scheme := scheme bt |}.

Definition set_bearer {W} (b : authn.Bearer) (bt : bearerTransport W)
  : bearerTransport W :=
  {| inner := inner bt; basic := basic bt; bearer := b;
     registry := registry bt; realm := realm bt; service := service bt;
     scopes := scopes bt; scheme := scheme bt |}.

Definition portMap : gmap string string :=
  {[ "http" := "80"; "https" := "443" ]}.

(** [portMap[scheme]]: a Go map gives the zero value for a missing key. *)
Definition portMap_at (scheme : string) : string :=
  default "" (portMap !! scheme).

Definition canonicalAddress {W} (bt : bearerTransport W) (host : string)
  : string :=
  if bool_decide (CountString host byte_colon = 1)
     || (bool_decide (2 <= CountString host byte_colon) && Contains host "]:")
  then
    match net.SplitHostPort host with
    | Err _ => host
    | Ok (hostname, port) =>
        let port :=
          if bool_decide (port = "") then portMap_at (scheme bt) else port in
        net.JoinHostPort hostname port
    end
  else net.JoinHostPort host (portMap_at (scheme bt)).

(** ** The machine: state, trace and the state-and-error monad *)

(** What the transport does to its surroundings, in order.  The trace is
    ghost state: it records a call, it never changes a result. *)
Inductive Event : Type :=
  | EvRoundTrip (r : http.Request)        (* bt.inner.RoundTrip(in) *)
  | EvRefresh                             (* bt.refresh() entered *)
  | EvRefreshOauth                        (* bt.refreshOauth() entered *)
  | EvRefreshBasic                        (* bt.refreshBasic() entered *)
  | EvPostForm (u : string) (v : url.Values)  (* client.PostForm(u, v) *)
  | EvGet (target u : string).            (* client.Get(u) through basicTransport *)

(** The receiver [bt], the request [in] points to, the outside world and
    the trace. *)
Record State (W : Type) : Type := mkState {
  this : bearerTransport W;
  in_ : http.Request;
  world : W;
  trace : list Event
}.
Arguments mkState {W} _ _ _ _.
Arguments this {W} _.
Arguments in_ {W} _.
Arguments world {W} _.
Arguments trace {W} _.

Section Machine.
Context {W : Type}.

(** A Go function with an [error] result that may mutate the state. *)
Definition M (A : Type) : Type := State W -> result A * State W.

Definition ret {A} (a : A) : M A := fun s => (Ok a, s).

Definition fail {A} (e : error) : M A := fun s => (Err e, s).

(** [v, err := m(); if err != nil { return nil, err }; k v] *)
Definition bind {A B} (m : M A) (k : A -> M B) : M B :=
  fun s =>
    match m s with
    | (Ok a, s') => k a s'
    | (Err e, s') => (Err e, s')
    end.

(** [v, err := m()], the error kept for the caller to look at. *)
Definition attempt {A} (m : M A) : M (result A) :=
  fun s => let '(r, s') := m s in (Ok r, s').

Definition lift {A} (r : result A) : M A := fun s => (r, s).

Definition get_bt : M (bearerTransport W) := fun s => (Ok (this s), s).

Definition get_in : M http.Request := fun s => (Ok (in_ s), s).

Definition modify_bt (f : bearerTransport W -> bearerTransport W) : M unit :=
  fun s => (Ok tt, mkState (f (this s)) (in_ s) (world s) (trace s)).

Definition modify_in (f : http.Request -> http.Request) : M unit :=
  fun s => (Ok tt, mkState (this s) (f (in_ s)) (world s) (trace s)).

Definition emit (ev : Event) : M unit :=
  fun s => (Ok tt, mkState (this s) (in_ s) (world s) (trace s ++ [ev])).

(** A call into the outside world. *)
Definition call {A} (f : W -> result A * W) : M A :=
  fun s =>
    let '(r, w) := f (world s) in
    (r, mkState (this s) (in_ s) w (trace s)).

End Machine.

Notation "x <- m ;; k" := (bind m (fun x => k))
  (at level 100, m at next level, right associativity).
Notation "m ;; k" := (bind m (fun _ => k))
  (at level 100, right associativity).

(** ** bearer.go *)

Section Bearer.
Context {W : Type} `{!Collaborators W}.

(** The closure [sendRequest] of [RoundTrip]. *)
Definition sendRequest : M (W := W) http.Response :=
  bt <- get_bt ;;
  auth <- lift (authn.Bearer_Authorization (bearer bt)) ;;
  inp <- get_in ;;
  let canonicalHeaderHost := canonicalAddress bt (http.Host inp) in
  let canonicalURLHost := canonicalAddress bt (url.Host (http.URL inp)) in
  let canonicalRegistryHost :=
    canonicalAddress bt (name.RegistryStr (registry bt)) in
  (if bool_decide (canonicalHeaderHost = canonicalRegistryHost)
      || bool_decide (canonicalURLHost = canonicalRegistryHost)
   then
     let hdr := "Bearer " +:+ authn.RegistryToken auth in
     modify_in (fun r =>
       http.set_Header (http.Header_Set "Authorization" hdr (http.Header_ r)) r) ;;
     modify_in (fun r =>
       http.set_URL (url.set_Scheme (scheme bt) (http.URL r)) r)
   else ret tt) ;;
  modify_in (fun r =>
    http.set_Header (http.Header_Set "User-Agent" transportName (http.Header_ r)) r) ;;
  inp <- get_in ;;
  emit (EvRoundTrip inp) ;;
  call (inner bt inp).

(** The form [v] that [refreshOauth] fills in and posts. *)
Definition oauth_form (bt : bearerTransport W) (auth : authn.AuthConfig)
  : url.Values :=
  let v : url.Values := ∅ in
  let v := url.Set_ "scope" (Join (scopes bt) " ") v in
  let v := url.Set_ "service" (service bt) v in
  let v := url.Set_ "client_id" transportName v in
  if negb (bool_decide (authn.IdentityToken auth = "")) then
    let v := url.Set_ "grant_type" "refresh_token" v in
    url.Set_ "refresh_token" (authn.IdentityToken auth) v
  else if negb (bool_decide (authn.Username auth = ""))
          && negb (bool_decide (authn.Password auth = "")) then
    let v := url.Set_ "grant_type" "password" v in
    let v := url.Set_ "username" (authn.Username auth) v in
    let v := url.Set_ "password" (authn.Password auth) v in
    url.Set_ "access_type" "offline" v
  else v.

(** https://docs.docker.com/registry/spec/auth/oauth/ *)
Definition refreshOauth : M (W := W) bytes :=
  emit EvRefreshOauth ;;
  bt <- get_bt ;;
  auth <- call (basic bt) ;;
  u <- lift (url_Parse (realm bt)) ;;
  let v := oauth_form bt auth in
  emit (EvPostForm (URL_String u) v) ;;
  resp <- call (Client_PostForm (inner bt) (URL_String u) v) ;;
  match CheckError resp http.StatusOK with
  | Some err => fail err
  | None => lift (ioutil.ReadAll resp)
  end.

(** https://docs.docker.com/registry/spec/auth/token/ *)
Definition refreshBasic : M (W := W) bytes :=
  emit EvRefreshBasic ;;
  bt <- get_bt ;;
  u <- lift (url_Parse (realm bt)) ;;
  let b := basicTransport (inner bt) (basic bt) (url.Host u) in
  let u :=
    url.set_RawQuery
      (Values_Encode {[ "scope" := scopes bt; "service" := [service bt] ]})
      u in
  emit (EvGet (url.Host u) (URL_String u)) ;;
  resp <- call (Client_Get b (URL_String u)) ;;
  match CheckError resp http.StatusOK with
  | Some err => fail err
  | None => lift (ioutil.ReadAll resp)
  end.

(** The order of the two flows: the basic token exchange first, unless
    the credential is an identity token. *)
Definition flows (auth : authn.AuthConfig)
  : M (W := W) bytes * M (W := W) bytes :=
  if negb (bool_decide (authn.IdentityToken auth = ""))
  then (refreshOauth, refreshBasic)
  else (refreshBasic, refreshOauth).

(** The closure of [refresh] that runs [first] and falls back on
    [second]. *)
Definition fetch (first second : M (W := W) bytes) : M (W := W) bytes :=
  r <- attempt first ;;
  match r with
  | Err _ => second
  | Ok b => ret b
  end.

(** The second half of [refresh]: the body that was fetched is decoded
    and the credentials are replaced. *)
Definition install (content : bytes) : M (W := W) unit :=
  response <- lift (json_Unmarshal content) ;;
  (* Some registries set access_token instead of token. *)
  let response :=
    if negb (bool_decide (AccessToken response = ""))
    then set_Token (AccessToken response) response
    else response in
  (* Find a token to turn into a Bearer authenticator *)
  if negb (bool_decide (Token response = "")) then
    let bearer := authn.mkBearer (Token response) in
    (* If we obtained a refresh token from the oauth flow, use that for
       refresh() now. *)
    (if negb (bool_decide (RefreshToken response = "")) then
       modify_bt (set_basic (authn.FromConfig
         {| authn.Username := ""; authn.Password := "";
            authn.IdentityToken := RefreshToken response;
            authn.RegistryToken := "" |}))
     else ret tt) ;;
    (* Replace our old bearer authenticator (if we had one) with our
       newly refreshed authenticator. *)
    modify_bt (set_bearer bearer)
  else
    fail (Errorf ("no token in bearer response:" +:+ newline +:+ content)).

Definition refresh : M (W := W) unit :=
  emit EvRefresh ;;
  bt <- get_bt ;;
  auth <- call (basic bt) ;;
  let '(first, second) := flows auth in
  content <- fetch first second ;;
  install content.

(** RoundTrip implements http.RoundTripper *)
Definition RoundTrip : M (W := W) http.Response :=
  res <- sendRequest ;;
  (* Perform a token refresh() and retry the request in case the token
     has expired *)
  if bool_decide (http.StatusCode res = http.StatusUnauthorized) then
    refresh ;;
    sendRequest
  else ret res.

End Bearer.

(** ** Vocabulary of the properties *)

Section Vocabulary.
Context {W : Type}.

(** The host-match rule: the canonical form of the request's [Host]
    field or of its URL host is the canonical form of the registry
    host. *)
Definition host_matches (bt : bearerTransport W) (inp : http.Request) : bool :=
  bool_decide (canonicalAddress bt (http.Host inp) =
               canonicalAddress bt (name.RegistryStr (registry bt)))
  || bool_decide (canonicalAddress bt (url.Host (http.URL inp)) =
                  canonicalAddress bt (name.RegistryStr (registry bt))).

(** The state once [ev] is recorded and the world has moved to [w]. *)
Definition entered (ev : Event) (w : W) (s : State W) : State W :=
  mkState (this s) (in_ s) w (trace s ++ [ev]).

End Vocabulary.

Definition is_send (ev : Event) : bool :=
  match ev with EvRoundTrip _ => true | _ => false end.

Definition is_refresh (ev : Event) : bool :=
  match ev with EvRefresh => true | _ => false end.

Definition is_flow (ev : Event) : bool :=
  match ev with EvRefreshOauth | EvRefreshBasic => true | _ => false end.

(** How often the request went to the inner transport, how often a
    refresh was started, and which token flows were tried, in a trace. *)
Definition sends (tr : list Event) : nat := length (List.filter is_send tr).
Definition refreshes (tr : list Event) : nat := length (List.filter is_refresh tr).
Definition attempts (tr : list Event) : list Event := List.filter is_flow tr.

(** A host in brackets with neither a colon nor a further bracket inside,
    such as [[name]]. *)
Definition bracketed_name (s : string) : Prop :=
  exists x, s = "[" +:+ x +:+ "]" /\
    IndexByteString x byte_colon = None /\
    IndexByteString x byte_lbrack = None /\
    IndexByteString x byte_rbrack = None.

(** The port that [canonicalAddress] keeps after a split. *)
Definition fill {W} (bt : bearerTransport W) (port : string) : string :=
  if bool_decide (port = "") then portMap_at (scheme bt) else port.

(** Events that are neither a send, nor a refresh, nor the start of a
    flow. *)
Definition silent (evs : list Event) : Prop :=
  attempts evs = [] /\ sends evs = 0 /\ refreshes evs = 0.

(** What a token fetch returns once the token service has answered: the
    common tail of [refreshOauth] and [refreshBasic]. *)
Definition checked (resp : http.Response) : result bytes :=
  match CheckError resp http.StatusOK with
  | Some err => Err err
  | None => ioutil.ReadAll resp
  end.

Section FlowVocabulary.
Context {W : Type} `{!Collaborators W}.

(** A flow touches neither the transport nor the request, and records
    its own start first. *)
Definition flow_frame (m : M (W := W) bytes) (ev : Event) : Prop :=
  forall s, this (m s).2 = this s /\ in_ (m s).2 = in_ s /\
    exists evs, trace (m s).2 = trace s ++ ev :: evs /\ silent evs.

(** [refresh], started in [s] and past the credential provider in [s1],
    tries [first], and [second] only when [first] fails; the body of the
    flow that succeeded is the one installed. *)
Definition tries_in_order (s s1 : State W) (first second : M (W := W) bytes)
    (e1 e2 : Event) : Prop :=
  exists evs, trace (refresh s).2 = trace s ++ evs /\
    match first s1 with
    | (Ok b, s2) => attempts evs = [e1] /\ refresh s = install b s2
    | (Err _, s2) =>
        attempts evs = [e1; e2] /\
        match second s2 with
        | (Ok b, s3) => refresh s = install b s3
        | (Err e, s3) => refresh s = (Err e, s3)
        end
    end.

(** The credential [refresh] stores when the token service hands out a
    refresh token [R]. *)
Definition identity_credential (R : string) : authn.Authenticator W :=
  authn.FromConfig {| authn.Username := ""; authn.Password := "";
                      authn.IdentityToken := R; authn.RegistryToken := "" |}.

End FlowVocabulary.

(** The claim that a 401 is always followed by one refresh and one more
    send of the request, whose outcome is returned. *)
Definition retries_once_on_401 {W} `{!Collaborators W} (s : State W) : Prop :=
  forall res s1,
    sendRequest s = (Ok res, s1) ->
    http.StatusCode res = http.StatusUnauthorized ->
    refreshes (trace (RoundTrip s).2) = refreshes (trace s) + 1 /\
    sends (trace (RoundTrip s).2) = sends (trace s) + 2.

(** ** A small world to run the transport in *)

Module Scenario.

(** The network is a script: the answers it will give, one per
    exchange. *)
Definition World : Type := list (result http.Response).

Definition exchange : RoundTripper World :=
  fun _ w =>
    match w with
    | [] => (Err (OtherError "connection refused"), [])
    | r :: w' => (r, w')
    end.

(** A stand-in for [url.Parse]: the realm is given as the host of the
    token service, with a query after [?] if it has one; a realm that
    starts with a colon has no scheme and is turned down. *)
Definition parse (raw : string) : result url.URL :=
  if bool_decide (String.get 0 raw = Some byte_colon)
  then Err (OtherError "missing protocol scheme")
  else match IndexByteString raw "?"%char with
       | None => Ok (url.mkURL "https" raw "/token" "")
       | Some i =>
           Ok (url.mkURL "https" (slice_to i raw) "/token"
                 (slice_from (i + 1) raw))
       end.

Definition print (u : url.URL) : string :=
  url.Scheme u +:+ "://" +:+ url.Host u +:+ url.Path u +:+
  (if bool_decide (url.RawQuery u = "") then "" else "?" +:+ url.RawQuery u).

Definition encode (v : url.Values) : string :=
  String.concat "&"
    ((fun kv : string * list string =>
        kv.1 +:+ "=" +:+ String.concat "," kv.2) <$> map_to_list v).

Definition decode (b : bytes) : result tokenResponse :=
  if bool_decide (b = "{}") then Ok (mkTokenResponse "" "" "")
  else if bool_decide (b = "{token:B}") then Ok (mkTokenResponse "B" "" "")
  else if bool_decide (b = "{access_token:A,token:B}")
       then Ok (mkTokenResponse "B" "A" "")
  else if bool_decide (b = "{token:B,refresh_token:R}")
       then Ok (mkTokenResponse "B" "" "R")
  else Err (OtherError "invalid character").

#[global] Instance collaborators : Collaborators World := {|
  url_Parse := parse;
  URL_String := print;
  Values_Encode := encode;
  json_Unmarshal := decode;
  Client_PostForm rt u v :=
    rt (http.mkRequest "POST" (url.mkURL "https" u "" "") ∅ u (encode v));
  Client_Get rt u :=
    rt (http.mkRequest "GET" (url.mkURL "https" u "" "") ∅ u "");
  basicTransport rt auth target :=
    fun r w =>
      match auth w with
      | (Ok _, w') => rt r w'
      | (Err e, w') => (Err e, w')
      end;
  transportName := "go-containerregistry"
|}.

Definition config (user pass identity : string) : authn.AuthConfig :=
  {| authn.Username := user; authn.Password := pass;
     authn.IdentityToken := identity; authn.RegistryToken := "" |}.

Definition password : authn.Authenticator World :=
  authn.FromConfig (config "user" "secret" "").

Definition identity : authn.Authenticator World :=
  authn.FromConfig (config "" "" "idtoken").

Definition anonymous : authn.Authenticator World :=
  authn.FromConfig (config "" "" "").

Definition broken : authn.Authenticator World :=
  fun w => (Err (OtherError "credential helper failed"), w).

Definition transport (auth : authn.Authenticator World)
  : bearerTransport World :=
  {| inner := exchange; basic := auth; bearer := authn.mkBearer "stale";
     registry := name.mkRegistry "gcr.io"; realm := "auth.gcr.io";
     service := "gcr.io"; scopes := ["repository:foo:pull"];
     scheme := "https" |}.

Definition request (host : string) : http.Request :=
  http.mkRequest "GET" (url.mkURL "http" host "/v2/" "") ∅ host "".

Definition answer (code : Z) (body : bytes) : result http.Response :=
  Ok (http.mkResponse code body None).

Definition start (auth : authn.Authenticator World) (host : string)
    (script : World) : State World :=
  mkState (transport auth) (request host) script [].

(** A transport on the registry [gcr.io], the request for it in hand. *)
Definition fresh (auth : authn.Authenticator World) (script : World)
  : State World :=
  start auth "gcr.io" script.

(** The realm of [transport], as [parse] reads it. *)
Definition realm_url : url.URL := url.mkURL "https" "auth.gcr.io" "/token" "".

(** The registry answers 401 and the token service turns both flows
    down. *)
Definition rejected : State World :=
  fresh password [answer 401 ""; answer 401 "denied"; answer 401 "denied"].

(** The registry answers 401, the token service hands out a token and
    the second send goes through. *)
Definition expired : State World :=
  fresh password
    [answer 401 ""; answer 200 "{token:B}"; answer 200 "manifest"].

End Scenario.

(** ** Vocabulary of the further properties *)

(** The calls to the token service. *)
Definition is_network (ev : Event) : bool :=
  match ev with EvPostForm _ _ | EvGet _ _ => true | _ => false end.

(** Two transports with the same target: all fields but the two
    credentials. *)
Definition same_target {W} (bt bt' : bearerTransport W) : Prop :=
  inner bt' = inner bt /\ registry bt' = registry bt /\ realm bt' = realm bt /\
  service bt' = service bt /\ scopes bt' = scopes bt /\ scheme bt' = scheme bt.

(** A transport whose realm does not parse, on a request for the
    registry. *)
Definition astray : State Scenario.World :=
  mkState
    {| inner := Scenario.exchange; basic := Scenario.password;
       bearer := authn.mkBearer "stale";
       registry := name.mkRegistry "gcr.io"; realm := "://auth.gcr.io";
       service := "gcr.io"; scopes := ["repository:foo:pull"];
       scheme := "https" |}
    (Scenario.request "gcr.io") [Scenario.answer 200 "{token:B}"] [].

(** ** Vocabulary of the POST *)

Section PostVocabulary.
Context {W : Type} `{!Collaborators W}.

(** The state of a [refresh] started in [s] once its OAuth2 flow has
    posted [v] to [target] and the world has moved to [w]. *)
Definition after_post (s : State W) (target : string) (v : url.Values) (w : W)
  : State W :=
  mkState (this s) (in_ s) w
    (trace s ++ [EvRefresh; EvRefreshOauth; EvPostForm target v]).

(** What [refresh] goes on with when its OAuth2 flow has failed: the basic
    flow, and the installing of its body. *)
Definition basic_fallback (s2 : State W) : result unit * State W :=
  match refreshBasic s2 with
  | (Ok content, s3) => install content s3
  | (Err e, s3) => (Err e, s3)
  end.

(** The claim that the OAuth2 fetch posts to a URL with no query
    string. *)
Definition posts_without_query (s : State W) : Prop :=
  forall target v,
    EvPostForm target v ∈ trace (refreshOauth s).2 ->
    IndexByteString target "?"%char = None.

End PostVocabulary.

(** A transport whose realm carries a query of its own. *)
Definition queried : State Scenario.World :=
  mkState
    {| inner := Scenario.exchange; basic := Scenario.password;
       bearer := authn.mkBearer "stale";
       registry := name.mkRegistry "gcr.io"; realm := "auth.gcr.io?foo=bar";
       service := "gcr.io"; scopes := ["repository:foo:pull"];
       scheme := "https" |}
    (Scenario.request "gcr.io") [Scenario.answer 200 "{token:B}"] [].

(** * Properties *)

Local Arguments String.append : simpl nomatch.

(** ** The [net] functions on sample addresses *)

Example SplitHostPort_name : net.SplitHostPort "gcr.io:443" = Ok ("gcr.io", "443").
Proof. reflexivity. Qed.
Example SplitHostPort_v6 : net.SplitHostPort "[::1]:5000" = Ok ("::1", "5000").
Proof. reflexivity. Qed.
Example SplitHostPort_bare :
  net.SplitHostPort "gcr.io" = Err (AddrError "missing port in address" "gcr.io").
Proof. reflexivity. Qed.
Example SplitHostPort_colons :
  net.SplitHostPort "a:b:1" = Err (AddrError "too many colons in address" "a:b:1").
Proof. reflexivity. Qed.
Example JoinHostPort_v6 : net.JoinHostPort "::1" "80" = "[::1]:80".
Proof. reflexivity. Qed.

(** ** Facts about Go strings *)

Lemma str_length_app (a b : string) :
  String.length (a +:+ b) = String.length a + String.length b.
Proof. induction a as [|x a IH]; simpl; [done | by rewrite IH]. Qed.

Lemma CountString_app a b c :
  CountString (a +:+ b) c = CountString a c + CountString b c.
Proof. induction a as [|x a IH]; simpl; [done | rewrite IH; lia]. Qed.

Lemma Index_None_Count s c :
  IndexByteString s c = None <-> CountString s c = 0.
Proof.
  induction s as [|x s IH]; simpl; [done |].
  destruct (Ascii.eqb x c); simpl.
  - split; intros; discriminate || lia.
  - destruct (IndexByteString s c); split; intros; try discriminate; try tauto.
    destruct IH as [_ IH]. specialize (IH H). discriminate.
Qed.

Lemma Index_Some_Count s c i :
  IndexByteString s c = Some i -> 1 <= CountString s c.
Proof.
  intros Hi. destruct (CountString s c) eqn:E; [|lia].
  apply Index_None_Count in E. congruence.
Qed.

Lemma Index_app a b c :
  IndexByteString (a +:+ b) c =
  match IndexByteString a c with
  | Some i => Some i
  | None => match IndexByteString b c with
            | Some j => Some (String.length a + j)
            | None => None
            end
  end.
Proof.
  induction a as [|x a IH]; simpl.
  - by destruct (IndexByteString b c).
  - destruct (Ascii.eqb x c); [done |]. rewrite IH.
    destruct (IndexByteString a c); [done |].
    by destruct (IndexByteString b c).

Qed.

Lemma Index_app_None a b c :
  IndexByteString (a +:+ b) c = None <->
  IndexByteString a c = None /\ IndexByteString b c = None.
Proof.
  rewrite Index_app.
  destruct (IndexByteString a c), (IndexByteString b c); intuition congruence.
Qed.

Lemma last_None s c : last s c = None <-> IndexByteString s c = None.
Proof.
  induction s as [|x s IH]; simpl; [done |].
  destruct (last s c), (IndexByteString s c), (Ascii.eqb x c);
    intuition congruence.
Qed.

Lemma last_app a b c :
  last (a +:+ b) c =
  match last b c with
  | Some j => Some (String.length a + j)
  | None => last a c
  end.
Proof.
  induction a as [|x a IH]; simpl.
  - by destruct (last b c).
  - rewrite IH. by destruct (last b c).
Qed.

Lemma slice_to_app a b : slice_to (String.length a) (a +:+ b) = a.
Proof. induction a as [|x a IH]; simpl; [by destruct b | by rewrite IH]. Qed.

Lemma slice_from_app a b : slice_from (String.length a) (a +:+ b) = b.
Proof. induction a as [|x a IH]; simpl; [by destruct b | done]. Qed.

Lemma slice_from_0 s : slice_from 0 s = s.
Proof. by destruct s. Qed.

Lemma Index_slice_from s c n :
  IndexByteString s c = None -> IndexByteString (slice_from n s) c = None.
Proof.
  revert n. induction s as [|x s IH]; intros [|n]; simpl; try done.
  destruct (Ascii.eqb x c); [done |].
  destruct (IndexByteString s c) eqn:E; [done |]. intros _. by apply IH.
Qed.

Lemma Index_slice_to s c n :
  IndexByteString s c = None -> IndexByteString (slice_to n s) c = None.
Proof.
  revert n. induction s as [|x s IH]; intros [|n]; simpl; try done.
  destruct (Ascii.eqb x c); [done |].
  destruct (IndexByteString s c) eqn:E; [done |]. intros _. by rewrite IH.
Qed.

Lemma Index_slice_from_le s c n m :
  n <= m -> IndexByteString (slice_from n s) c = None ->
  IndexByteString (slice_from m s) c = None.
Proof.
  revert n m. induction s as [|x s IH]; intros n m Hle.
  - by destruct n, m.
  - destruct n as [|n], m as [|m]; simpl; try done; try lia.
    + intros H. apply (Index_slice_from (String x s) c (S m)) in H. done.
    + apply IH. lia.
Qed.

Lemma last_slice_from s c i :
  last s c = Some i -> IndexByteString (slice_from (i + 1) s) c = None.
Proof.
  revert i. induction s as [|x s IH]; intros i; simpl; [done |].
  destruct (last s c) as [j|] eqn:E.
  - intros [= <-]. simpl. by apply IH.
  - destruct (Ascii.eqb x c); [|done]. intros [= <-].
    change (IndexByteString (slice_from 0 s) c = None).
    rewrite slice_from_0. by apply last_None.
Qed.

(* the first occurrence: nothing before it *)
Lemma Index_slice_before s c e n :
  IndexByteString s c = Some e ->
  IndexByteString (slice n e s) c = None.
Proof.
  unfold slice. revert e n. induction s as [|x s IH]; intros e n; simpl; [done |].
  destruct (Ascii.eqb x c) eqn:Ex.
  - intros [= <-]. simpl. by destruct n; simpl; destruct s.
  - destruct (IndexByteString s c) as [j|] eqn:E; [|done].
    intros [= <-]. destruct n as [|n]; simpl.
    + rewrite Ex. specialize (IH j 0 eq_refl). rewrite slice_from_0 in IH.
      replace (j - 0) with j in IH by lia. by rewrite IH.
    + by apply IH.
Qed.

Lemma Index_Some_lt s c e : IndexByteString s c = Some e -> e < String.length s.
Proof.
  revert e. induction s as [|x s IH]; intros e; simpl; [done |].
  destruct (Ascii.eqb x c); [intros [= <-]; lia |].
  destruct (IndexByteString s c); [|done]. intros [= <-].
  specialize (IH _ eq_refl). lia.
Qed.

Lemma slice_from_app_S a x b :
  slice_from (String.length a + 1) (a +:+ String x b) = b.
Proof.
  induction a as [|y a IH]; simpl; [by destruct b | done].
Qed.

Lemma slice_from_app_add a b n :
  slice_from (String.length a + n) (a +:+ b) = slice_from n b.
Proof. induction a as [|y a IH]; simpl; done. Qed.

Lemma last_sep h p c :
  IndexByteString p c = None ->
  last (h +:+ String c p) c = Some (String.length h).
Proof.
  intros Hp. rewrite last_app. simpl.
  apply last_None in Hp. rewrite Hp, Ascii.eqb_refl. f_equal. lia.
Qed.

Lemma SplitHostPort_plain h p :
  IndexByteString h byte_colon = None ->
  IndexByteString p byte_colon = None ->
  String.get 0 (h +:+ ":" +:+ p) <> Some byte_lbrack ->
  net.SplitHostPort (h +:+ ":" +:+ p) =
  match IndexByteString (h +:+ ":" +:+ p) byte_lbrack with
  | Some _ => net.addrErr (h +:+ ":" +:+ p) "unexpected '[' in address"
  | None =>
      match IndexByteString (h +:+ ":" +:+ p) byte_rbrack with
      | Some _ => net.addrErr (h +:+ ":" +:+ p) "unexpected ']' in address"
      | None => Ok (h, p)
      end
  end.
Proof.
  intros Hh Hp Hget. unfold net.SplitHostPort.
  change (":" +:+ p) with (String byte_colon p) in *.
  rewrite (last_sep h p byte_colon Hp).
  rewrite bool_decide_eq_false_2 by done.
  rewrite slice_to_app, Hh, slice_from_0, slice_from_app_S. done.
Qed.

Lemma SplitHostPort_bracket h p :
  IndexByteString h byte_rbrack = None ->
  IndexByteString p byte_colon = None ->
  net.SplitHostPort ("[" +:+ h +:+ "]:" +:+ p) =
  match IndexByteString (h +:+ "]:" +:+ p) byte_lbrack with
  | Some _ => net.addrErr ("[" +:+ h +:+ "]:" +:+ p) "unexpected '[' in address"
  | None =>
      match IndexByteString p byte_rbrack with
      | Some _ => net.addrErr ("[" +:+ h +:+ "]:" +:+ p) "unexpected ']' in address"
      | None => Ok (h, p)
      end
  end.
Proof.
  intros Hh Hp. unfold net.SplitHostPort.
  set (s := "[" +:+ h +:+ "]:" +:+ p).
  assert (Hlast : last s byte_colon = Some (String.length h + 2)).
  { subst s. change ("[" +:+ h +:+ "]:" +:+ p)
      with (String byte_lbrack (h +:+ String byte_rbrack (String byte_colon p))).
    simpl. rewrite last_app. simpl. apply last_None in Hp. rewrite Hp. simpl.
    f_equal. lia. }
  assert (Hidx : IndexByteString s byte_rbrack = Some (String.length h + 1)).
  { subst s. simpl. rewrite Index_app, Hh. simpl. f_equal. lia. }
  assert (Hlen : String.length s = String.length h + 3 + String.length p).
  { subst s. simpl. rewrite str_length_app. simpl. lia. }
  rewrite Hlast, Hidx, Hlen.
  rewrite (bool_decide_eq_true_2 (String.get 0 s = Some byte_lbrack)) by done.
  rewrite bool_decide_eq_false_2 by lia.
  rewrite bool_decide_eq_true_2 by lia.
  assert (Hhost : slice 1 (String.length h + 1) s = h).
  { subst s. unfold slice. simpl.
    replace (String.length h + 1 - 1) with (String.length h) by lia.
    apply slice_to_app. }
  assert (Hj : slice_from 1 s = h +:+ "]:" +:+ p) by done.
  assert (Hk : slice_from (String.length h + 1 + 1) s = String byte_colon p).
  { subst s. replace (String.length h + 1 + 1) with (S (String.length h + 1)) by lia.
    simpl. apply slice_from_app_S. }
  assert (Hport : slice_from (String.length h + 2 + 1) s = p).
  { subst s. replace (String.length h + 2 + 1) with (S (String.length h + 2)) by lia.
    simpl. rewrite slice_from_app_add. simpl. apply slice_from_0. }
  rewrite Hhost, Hj, Hk, Hport. simpl.
  destruct (IndexByteString _ byte_lbrack); [done |].
  by destruct (IndexByteString p byte_rbrack).
Qed.

(** ** Splitting and joining host and port *)

Lemma SplitHostPort_bracket_stray h p e :
  IndexByteString h byte_rbrack = Some e ->
  IndexByteString p byte_colon = None ->
  exists err, net.SplitHostPort ("[" +:+ h +:+ "]:" +:+ p) = Err err.
Proof.
  intros Hh Hp. unfold net.SplitHostPort.
  set (s := "[" +:+ h +:+ "]:" +:+ p).
  assert (Hlast : last s byte_colon = Some (String.length h + 2)).
  { subst s. simpl. rewrite last_app. simpl. apply last_None in Hp.
    rewrite Hp. simpl. f_equal. lia. }
  assert (Hidx : IndexByteString s byte_rbrack = Some (S e)).
  { subst s. simpl. by rewrite Index_app, Hh. }
  assert (Hlen : String.length s = String.length h + 3 + String.length p).
  { subst s. simpl. rewrite str_length_app. simpl. lia. }
  apply Index_Some_lt in Hh.
  rewrite Hlast, Hidx, Hlen.
  rewrite (bool_decide_eq_true_2 (String.get 0 s = Some byte_lbrack)) by done.
  rewrite bool_decide_eq_false_2 by lia.
  rewrite bool_decide_eq_false_2 by lia.
  unfold net.addrErr. case_bool_decide; eauto.
Qed.

Lemma SplitHostPort_Ok_free s h p :
  net.SplitHostPort s = Ok (h, p) ->
  (IndexByteString h byte_lbrack = None /\ IndexByteString h byte_rbrack = None) /\
  IndexByteString p byte_colon = None /\
  IndexByteString p byte_lbrack = None /\ IndexByteString p byte_rbrack = None.
Proof.
  unfold net.SplitHostPort, net.addrErr.
  destruct (last s byte_colon) as [i|] eqn:Hlast; [|done].
  pose proof (last_slice_from _ _ _ Hlast) as Hport.
  case_bool_decide as Hget.
  - destruct (IndexByteString s byte_rbrack) as [e|] eqn:He; [|done].
    repeat case_bool_decide; try done. subst i.
    destruct (IndexByteString (slice_from 1 s) byte_lbrack) eqn:Hl; [done |].
    destruct (IndexByteString (slice_from (e + 1) s) byte_rbrack) eqn:Hr; [done |].
    intros [= <- <-]. repeat split.
    + unfold slice. by apply Index_slice_to.
    + by apply Index_slice_before.
    + done.
    + apply (Index_slice_from_le s _ 1); [lia | done].
    + apply (Index_slice_from_le s _ (e + 1)); [lia | done].
  - destruct (IndexByteString (slice_to i s) byte_colon) eqn:Hc; [done |].
    rewrite slice_from_0.
    destruct (IndexByteString s byte_lbrack) eqn:Hl; [done |].
    destruct (IndexByteString s byte_rbrack) eqn:Hr; [done |].
    intros [= <- <-]. repeat split; auto using Index_slice_to, Index_slice_from.
Qed.

Lemma portMap_at_cases scheme :
  portMap_at scheme = "80" \/ portMap_at scheme = "443" \/ portMap_at scheme = "".
Proof.
  unfold portMap_at, portMap.
  destruct (decide (scheme = "http")) as [->|Hh]; [by left |].
  destruct (decide (scheme = "https")) as [->|Hs]; [by right; left |].
  right; right. by rewrite lookup_insert_ne, lookup_singleton_ne.
Qed.

Lemma portMap_at_free scheme c :
  c = byte_colon \/ c = byte_lbrack \/ c = byte_rbrack ->
  IndexByteString (portMap_at scheme) c = None.
Proof.
  intros Hc.
  destruct (portMap_at_cases scheme) as [-> | [-> | ->]];
    destruct Hc as [-> | [-> | ->]]; reflexivity.
Qed.

Lemma get_0_free s c :
  IndexByteString s c = None -> String.get 0 s <> Some c.
Proof.
  destruct s as [|x s]; simpl; [done |].
  destruct (Ascii.eqb x c) eqn:E; [done |]. intros _ [= ->].
  by rewrite Ascii.eqb_refl in E.
Qed.

Lemma get_0_app a b :
  a <> "" -> String.get 0 (a +:+ b) = String.get 0 a.
Proof. by destruct a. Qed.

Lemma Contains_app_l a b sub : Contains b sub = true -> Contains (a +:+ b) sub = true.
Proof.
  intros Hb. induction a as [|x a IH]; simpl; [done |].
  rewrite IH. apply orb_true_r.
Qed.

Lemma JoinHostPort_colon h p c :
  IndexByteString h byte_colon = Some c ->
  net.JoinHostPort h p = "[" +:+ h +:+ "]:" +:+ p.
Proof. unfold net.JoinHostPort. by intros ->. Qed.

Lemma JoinHostPort_plain h p :
  IndexByteString h byte_colon = None ->
  net.JoinHostPort h p = h +:+ ":" +:+ p.
Proof. unfold net.JoinHostPort. by intros ->. Qed.

Lemma CountString_bracket h p :
  CountString ("[" +:+ h +:+ "]:" +:+ p) byte_colon =
  CountString h byte_colon + 1 + CountString p byte_colon.
Proof. simpl. rewrite CountString_app. simpl. lia. Qed.

Lemma CountString_plain h p :
  CountString (h +:+ ":" +:+ p) byte_colon =
  CountString h byte_colon + 1 + CountString p byte_colon.
Proof. rewrite CountString_app. simpl. lia. Qed.

Lemma Contains_bracket h p : Contains ("[" +:+ h +:+ "]:" +:+ p) "]:" = true.
Proof.
  apply (Contains_app_l ("[" +:+ h) ("]:" +:+ p) "]:"). by destruct p.
Qed.


Lemma str_app_assoc (a b c : string) : (a +:+ b) +:+ c = a +:+ b +:+ c.
Proof. induction a as [|x a IH]; simpl; [done | by rewrite IH]. Qed.

Lemma slice_to_from s n : slice_to n s +:+ slice_from n s = s.
Proof.
  revert n. induction s as [|x s IH]; intros [|n]; simpl; try done.
  by rewrite IH.
Qed.

Lemma Index_Some_from s c e :
  IndexByteString s c = Some e ->
  slice_from e s = String c (slice_from (e + 1) s).
Proof.
  revert e. induction s as [|x s IH]; intros e; simpl; [done |].
  destruct (Ascii.eqb x c) eqn:E.
  - intros [= <-]. apply Ascii.eqb_eq in E as ->. simpl. by destruct s.
  - destruct (IndexByteString s c); [|done]. intros [= <-]. simpl. by apply IH.
Qed.

Lemma last_Some_from s c i :
  last s c = Some i -> slice_from i s = String c (slice_from (i + 1) s).
Proof.
  revert i. induction s as [|x s IH]; intros i; simpl; [done |].
  destruct (last s c).
  - intros [= <-]. simpl. by apply IH.
  - destruct (Ascii.eqb x c) eqn:E; [|done].
    intros [= <-]. apply Ascii.eqb_eq in E as ->. simpl. by destruct s.
Qed.

(** The shape of an address that splits on its bracket branch. *)
Lemma SplitHostPort_Ok_bracket s h p :
  String.get 0 s = Some byte_lbrack ->
  net.SplitHostPort s = Ok (h, p) ->
  s = "[" +:+ h +:+ "]:" +:+ p.
Proof.
  intros Hget. unfold net.SplitHostPort, net.addrErr.
  destruct (last s byte_colon) as [i|] eqn:Hlast; [|done].
  rewrite (bool_decide_eq_true_2 _ Hget).
  destruct (IndexByteString s byte_rbrack) as [e|] eqn:He; [|done].
  repeat case_bool_decide; try done. subst i.
  destruct (IndexByteString (slice_from 1 s) byte_lbrack); [done |].
  destruct (IndexByteString (slice_from (e + 1) s) byte_rbrack); [done |].
  intros [= <- <-].
  apply Index_Some_from in He. apply last_Some_from in Hlast.
  rewrite <- (slice_to_from s e) at 1. rewrite He, Hlast.
  destruct s as [|x t]; [done |]. injection Hget as ->.
  destruct e as [|e].
  { simpl in He. discriminate He. }
  unfold slice. simpl. by replace (e - 0) with e by lia.
Qed.

Lemma app_colon_inj a b a' b' :
  IndexByteString b byte_colon = None ->
  IndexByteString b' byte_colon = None ->
  a +:+ ":" +:+ b = a' +:+ ":" +:+ b' -> a = a' /\ b = b'.
Proof.
  intros Hb Hb' Heq.
  pose proof (last_sep a b byte_colon Hb) as H1.
  pose proof (last_sep a' b' byte_colon Hb') as H2.
  change (String byte_colon b) with (":" +:+ b) in H1.
  change (String byte_colon b') with (":" +:+ b') in H2.
  rewrite Heq, H2 in H1. injection H1 as Hlen.
  pose proof (slice_to_app a (":" +:+ b)) as Ha.
  rewrite Heq, <- Hlen, slice_to_app in Ha. subst a'.
  split; [done |]. apply String.app_inj in Heq. by injection Heq.
Qed.


(** ** Host canonicalization *)

Section Canonical.
Context {W : Type} (bt : bearerTransport W).

Lemma fill_fill port : fill bt (fill bt port) = fill bt port.
Proof. unfold fill. repeat case_bool_decide; congruence. Qed.

Lemma fill_default : fill bt (portMap_at (scheme bt)) = portMap_at (scheme bt).
Proof. unfold fill. by case_bool_decide. Qed.

Lemma fill_free port c :
  c = byte_colon \/ c = byte_lbrack \/ c = byte_rbrack ->
  IndexByteString port c = None -> IndexByteString (fill bt port) c = None.
Proof.
  intros Hc Hp. unfold fill. case_bool_decide; [|done].
  by apply portMap_at_free.
Qed.

Lemma canonicalAddress_split s :
  CountString s byte_colon = 1 \/
  (2 <= CountString s byte_colon /\ Contains s "]:" = true) ->
  canonicalAddress bt s =
  match net.SplitHostPort s with
  | Err _ => s
  | Ok (h, p) => net.JoinHostPort h (fill bt p)
  end.
Proof.
  intros Hs. unfold canonicalAddress.
  destruct Hs as [H1 | [H2 Hc]].
  - by rewrite (bool_decide_eq_true_2 _ H1).
  - by rewrite (bool_decide_eq_true_2 _ H2), Hc, orb_true_r.
Qed.

Lemma canonicalAddress_join s :
  CountString s byte_colon = 0 \/
  (2 <= CountString s byte_colon /\ Contains s "]:" = false) ->
  canonicalAddress bt s = net.JoinHostPort s (portMap_at (scheme bt)).
Proof.
  intros Hs. unfold canonicalAddress.
  destruct Hs as [H0 | [H2 Hc]].
  - rewrite bool_decide_eq_false_2 by lia.
    by rewrite (bool_decide_eq_false_2 (2 <= _)) by lia.
  - rewrite bool_decide_eq_false_2 by lia.
    by rewrite Hc, andb_false_r.
Qed.

(** A joined pair whose parts came out of a split is a fixed point. *)
Lemma canonicalAddress_Join h p :
  IndexByteString h byte_lbrack = None ->
  IndexByteString h byte_rbrack = None ->
  IndexByteString p byte_colon = None ->
  IndexByteString p byte_lbrack = None ->
  IndexByteString p byte_rbrack = None ->
  fill bt p = p ->
  canonicalAddress bt (net.JoinHostPort h p) = net.JoinHostPort h p.
Proof.
  intros Hhl Hhr Hpc Hpl Hpr Hfill.
  destruct (IndexByteString h byte_colon) as [c|] eqn:Hhc.
  - rewrite (JoinHostPort_colon h p c Hhc).
    rewrite canonicalAddress_split.
    2:{ right. rewrite CountString_bracket, Contains_bracket.
        apply Index_Some_Count in Hhc. split; [lia | done]. }
    rewrite SplitHostPort_bracket by done.
    rewrite (proj2 (Index_app_None h ("]:" +:+ p) byte_lbrack)), Hpr.
    2:{ split; [done |]. simpl. by rewrite Hpl. }
    by rewrite Hfill, (JoinHostPort_colon h p c Hhc).
  - rewrite (JoinHostPort_plain h p Hhc).
    rewrite canonicalAddress_split.
    2:{ left. rewrite CountString_plain.
        apply Index_None_Count in Hhc, Hpc. lia. }
    rewrite SplitHostPort_plain; [| done | done |].
    2:{ apply get_0_free, Index_app_None. split; [done |]. simpl. by rewrite Hpl. }
    rewrite (proj2 (Index_app_None h (":" +:+ p) byte_lbrack)).
    2:{ split; [done |]. simpl. by rewrite Hpl. }
    rewrite (proj2 (Index_app_None h (":" +:+ p) byte_rbrack)).
    2:{ split; [done |]. simpl. by rewrite Hpr. }
    by rewrite Hfill, (JoinHostPort_plain h p Hhc).
Qed.

(** Whatever goes through the split is canonical afterwards. *)
Lemma canonicalAddress_idem_split s :
  CountString s byte_colon = 1 \/
  (2 <= CountString s byte_colon /\ Contains s "]:" = true) ->
  canonicalAddress bt (canonicalAddress bt s) = canonicalAddress bt s.
Proof.
  intros Hs. rewrite (canonicalAddress_split s Hs).
  destruct (net.SplitHostPort s) as [[h p]|e] eqn:Hsplit.
  - apply SplitHostPort_Ok_free in Hsplit as [[Hhl Hhr] [Hpc [Hpl Hpr]]].
    apply canonicalAddress_Join; auto using fill_free, fill_fill.
  - rewrite (canonicalAddress_split s Hs). by rewrite Hsplit.
Qed.

(** An address with several colons and no port gets brackets and the
    default port, and stays so. *)
Lemma canonicalAddress_idem_v6 s :
  2 <= CountString s byte_colon -> Contains s "]:" = false ->
  canonicalAddress bt (canonicalAddress bt s) = canonicalAddress bt s.
Proof.
  intros H2 Hc. rewrite (canonicalAddress_join s) by auto.
  destruct (IndexByteString s byte_colon) as [c|] eqn:Hsc.
  2:{ apply Index_None_Count in Hsc. lia. }
  rewrite (JoinHostPort_colon s _ c Hsc).
  set (d := portMap_at (scheme bt)).
  assert (Hd : IndexByteString d byte_colon = None)
    by (apply portMap_at_free; auto).
  rewrite canonicalAddress_split.
  2:{ right. rewrite CountString_bracket, Contains_bracket. split; [lia | done]. }
  destruct (IndexByteString s byte_rbrack) as [e|] eqn:Hr.
  - destruct (SplitHostPort_bracket_stray s d e Hr Hd) as [err ->]. done.
  - rewrite SplitHostPort_bracket by done.
    destruct (IndexByteString (s +:+ "]:" +:+ d) byte_lbrack); [done |].
    destruct (IndexByteString d byte_rbrack); [done |].
    subst d. by rewrite fill_default, (JoinHostPort_colon s _ c Hsc).
Qed.

(** A colon-free host that does not open a bracket gets the default
    port, and stays so. *)
Lemma canonicalAddress_idem_name s :
  CountString s byte_colon = 0 -> String.get 0 s <> Some byte_lbrack ->
  canonicalAddress bt (canonicalAddress bt s) = canonicalAddress bt s.
Proof.
  intros H0 Hget. rewrite (canonicalAddress_join s) by auto.
  assert (Hsc : IndexByteString s byte_colon = None)
    by (by apply Index_None_Count).
  rewrite (JoinHostPort_plain s _ Hsc).
  set (d := portMap_at (scheme bt)).
  assert (Hd : IndexByteString d byte_colon = None)
    by (apply portMap_at_free; auto).
  rewrite canonicalAddress_split.
  2:{ left. rewrite CountString_plain. apply Index_None_Count in Hd. lia. }
  rewrite SplitHostPort_plain; [| done | done |].
  2:{ destruct s; [by destruct d |]. done. }
  destruct (IndexByteString (s +:+ ":" +:+ d) byte_lbrack); [done |].
  destruct (IndexByteString (s +:+ ":" +:+ d) byte_rbrack); [done |].
  subst d. by rewrite fill_default, (JoinHostPort_plain s _ Hsc).
Qed.

Lemma canonicalAddress_idem_closed s :
  (CountString s byte_colon = 0 -> String.get 0 s <> Some byte_lbrack) ->
  canonicalAddress bt (canonicalAddress bt s) = canonicalAddress bt s.
Proof.
  intros Hs.
  destruct (decide (CountString s byte_colon = 0)) as [H0|H0].
  { apply canonicalAddress_idem_name; auto. }
  destruct (decide (CountString s byte_colon = 1)) as [H1|H1].
  { apply canonicalAddress_idem_split; auto. }
  destruct (Contains s "]:") eqn:Hc.
  - apply canonicalAddress_idem_split. right. split; [lia | done].
  - apply canonicalAddress_idem_v6; [lia | done].
Qed.


Lemma canonicalAddress_bracketed_name x :
  IndexByteString x byte_colon = None ->
  IndexByteString x byte_lbrack = None ->
  IndexByteString x byte_rbrack = None ->
  canonicalAddress bt ("[" +:+ x +:+ "]") =
    "[" +:+ x +:+ "]:" +:+ portMap_at (scheme bt) /\
  canonicalAddress bt ("[" +:+ x +:+ "]:" +:+ portMap_at (scheme bt)) =
    x +:+ ":" +:+ portMap_at (scheme bt).
Proof.
  intros Hc Hl Hr. set (d := portMap_at (scheme bt)).
  assert (Hdc : IndexByteString d byte_colon = None)
    by (apply portMap_at_free; auto).
  assert (Hdl : IndexByteString d byte_lbrack = None)
    by (apply portMap_at_free; auto).
  assert (Hdr : IndexByteString d byte_rbrack = None)
    by (apply portMap_at_free; auto).
  assert (Hsc : IndexByteString ("[" +:+ x +:+ "]") byte_colon = None).
  { simpl. by rewrite Index_app, Hc. }
  split.
  - rewrite canonicalAddress_join by (left; by apply Index_None_Count).
    rewrite (JoinHostPort_plain _ _ Hsc). simpl. by rewrite str_app_assoc.
  - rewrite canonicalAddress_split.
    2:{ left. rewrite CountString_bracket.
        apply Index_None_Count in Hc, Hdc. lia. }
    rewrite SplitHostPort_bracket by done.
    rewrite (proj2 (Index_app_None x ("]:" +:+ d) byte_lbrack)), Hdr.
    2:{ split; [done |]. simpl. by rewrite Hdl. }
    subst d. by rewrite fill_default, (JoinHostPort_plain _ _ Hc).
Qed.

Lemma canonicalAddress_idem_open s :
  CountString s byte_colon = 0 -> String.get 0 s = Some byte_lbrack ->
  ~ bracketed_name s ->
  canonicalAddress bt (canonicalAddress bt s) = canonicalAddress bt s.
Proof.
  intros H0 Hget Hnot. rewrite (canonicalAddress_join s) by auto.
  assert (Hsc : IndexByteString s byte_colon = None)
    by (by apply Index_None_Count).
  rewrite (JoinHostPort_plain s _ Hsc).
  set (d := portMap_at (scheme bt)).
  assert (Hd : IndexByteString d byte_colon = None)
    by (apply portMap_at_free; auto).
  rewrite canonicalAddress_split.
  2:{ left. rewrite CountString_plain. apply Index_None_Count in Hd. lia. }
  destruct (net.SplitHostPort (s +:+ ":" +:+ d)) as [[h p]|e] eqn:Hsplit; [|done].
  exfalso. apply Hnot.
  pose proof (SplitHostPort_Ok_free _ _ _ Hsplit) as [[Hhl Hhr] [Hpc _]].
  apply SplitHostPort_Ok_bracket in Hsplit.
  2:{ rewrite get_0_app; [done |]. by destruct s. }
  change ("[" +:+ h +:+ "]:" +:+ p) with ("[" +:+ h +:+ "]" +:+ ":" +:+ p) in Hsplit.
  rewrite <- (str_app_assoc h "]"), <- (str_app_assoc "[") in Hsplit.
  apply app_colon_inj in Hsplit as [Hs _]; [| done | done].
  exists h. repeat split; try done.
  subst s. simpl in Hsc. rewrite Index_app in Hsc.
  by destruct (IndexByteString h byte_colon).
Qed.

Lemma canonicalAddress_idempotent_iff s :
  canonicalAddress bt (canonicalAddress bt s) = canonicalAddress bt s <->
  ~ bracketed_name s.
Proof.
  split.
  - intros Hidem (x & -> & Hc & Hl & Hr).
    destruct (canonicalAddress_bracketed_name x Hc Hl Hr) as [H1 H2].
    rewrite H1, H2 in Hidem.
    apply (f_equal String.length) in Hidem.
    simpl in Hidem. rewrite !str_length_app in Hidem. simpl in Hidem. lia.
  - intros Hnot.
    destruct (decide (CountString s byte_colon = 0)) as [H0|H0];
      [destruct (decide (String.get 0 s = Some byte_lbrack)) as [Hg|Hg] |].
    + by apply canonicalAddress_idem_open.
    + by apply canonicalAddress_idem_closed.
    + by apply canonicalAddress_idem_closed.
Qed.

End Canonical.

(** C6 (amended).  Canonicalizing a canonical form gives it back for
    every host string except a bracketed name, [[x]] with no colon and no
    bracket inside [x], and for those it does not.  A host without a colon
    that is not a bracketed name, and the same host followed by [:80]
    under [http], or by [:443] under [https], have the same canonical
    form. *)
Theorem canonicalAddress_idempotence {W} (bt : bearerTransport W) (host : string) :
  (canonicalAddress bt (canonicalAddress bt host) = canonicalAddress bt host
   <-> ~ bracketed_name host) /\
  (IndexByteString host byte_colon = None -> ~ bracketed_name host ->
   (scheme bt = "http" ->
      canonicalAddress bt (host +:+ ":80") = canonicalAddress bt host) /\
   (scheme bt = "https" ->
      canonicalAddress bt (host +:+ ":443") = canonicalAddress bt host)).
Proof.
  split; [apply canonicalAddress_idempotent_iff |].
  intros Hcolon Hname.
  assert (Hcanon : canonicalAddress bt host =
                   host +:+ ":" +:+ portMap_at (scheme bt)).
  { rewrite canonicalAddress_join by (left; by apply Index_None_Count).
    by apply JoinHostPort_plain. }
  apply (canonicalAddress_idempotent_iff bt) in Hname.
  split; intros Hscheme; rewrite Hscheme in Hcanon;
    rewrite <- Hname; by rewrite Hcanon.
Qed.

(** A registry name, under [https]. *)
Lemma canonicalAddress_idempotence_witness :
  IndexByteString "gcr.io" byte_colon = None /\
  ~ bracketed_name "gcr.io" /\
  canonicalAddress (Scenario.transport Scenario.password)
    (canonicalAddress (Scenario.transport Scenario.password) "gcr.io")
  = canonicalAddress (Scenario.transport Scenario.password) "gcr.io" /\
  canonicalAddress (Scenario.transport Scenario.password) ("gcr.io" +:+ ":443")
  = canonicalAddress (Scenario.transport Scenario.password) "gcr.io".
Proof.
  assert (Hname : ~ bracketed_name "gcr.io").
  { intros (x & Hx & _). discriminate Hx. }
  destruct (canonicalAddress_idempotence
              (Scenario.transport Scenario.password) "gcr.io") as [Hidem Hport].
  split; [reflexivity |]. split; [exact Hname |]. split.
  - apply Hidem, Hname.
  - apply (Hport eq_refl Hname). reflexivity.
Defined.

(** The bracketed name [[example.com]] loses its brackets on the second
    pass. *)
Lemma canonicalAddress_not_idempotent :
  ~ (forall host,
       canonicalAddress (Scenario.transport Scenario.password)
         (canonicalAddress (Scenario.transport Scenario.password) host)
       = canonicalAddress (Scenario.transport Scenario.password) host).
Proof.
  intros Hidem. specialize (Hidem "[example.com]").
  vm_compute in Hidem. discriminate Hidem.
Qed.


(** ** Traces and the machine *)

Lemma sends_app a b : sends (a ++ b) = sends a + sends b.
Proof. unfold sends. by rewrite List.filter_app, length_app. Qed.

Lemma refreshes_app a b : refreshes (a ++ b) = refreshes a + refreshes b.
Proof. unfold refreshes. by rewrite List.filter_app, length_app. Qed.

Lemma attempts_app a b : attempts (a ++ b) = attempts a ++ attempts b.
Proof. apply List.filter_app. Qed.

Ltac run :=
  unfold bind, ret, fail, lift, attempt, get_bt, get_in, modify_bt, modify_in,
    emit, call; simpl.

Section Dispatcher.
Context {W : Type} `{!Collaborators W}.
Implicit Types s : State W.

(** The request as [sendRequest] hands it to the inner transport. *)
Lemma sendRequest_eq s :
  exists sent,
    sendRequest s =
      ((inner (this s) sent (world s)).1,
       mkState (this s) sent (inner (this s) sent (world s)).2
         (trace s ++ [EvRoundTrip sent])) /\
    http.Header_ sent !! "User-Agent" = Some [transportName] /\
    http.Host sent = http.Host (in_ s) /\
    url.Host (http.URL sent) = url.Host (http.URL (in_ s)) /\
    if host_matches (this s) (in_ s)
    then http.Header_ sent !! "Authorization" =
           Some ["Bearer " +:+ authn.Token (bearer (this s))] /\
         url.Scheme (http.URL sent) = scheme (this s)
    else http.Header_ sent !! "Authorization" =
           http.Header_ (in_ s) !! "Authorization" /\
         url.Scheme (http.URL sent) = url.Scheme (http.URL (in_ s)).
Proof.
  unfold sendRequest, host_matches. run.
  destruct (bool_decide _ || bool_decide _); simpl.
  - match goal with |- context [EvRoundTrip ?r] => exists r end. split.
    { by destruct (inner _ _ _) as [r w]. }
    simpl. unfold http.Header_Set.
    rewrite lookup_insert_eq, lookup_insert_ne by done.
    by rewrite lookup_insert_eq.
  - match goal with |- context [EvRoundTrip ?r] => exists r end. split.
    { by destruct (inner _ _ _) as [r w]. }
    simpl. unfold http.Header_Set.
    by rewrite lookup_insert_eq, lookup_insert_ne by done.
Qed.


(** C1.  Every request that [sendRequest] hands to the inner transport
    is the request [in] as it then stands, and: when the canonical form
    of its [Host] field or of its URL host is the canonical form of the
    registry host, its [Authorization] header is [Bearer <token>] and
    its scheme is the transport's; when neither is, the [Authorization]
    header and the scheme are as they were. *)
Theorem sendRequest_authorization s :
  exists sent,
    trace (sendRequest s).2 = trace s ++ [EvRoundTrip sent] /\
    in_ (sendRequest s).2 = sent /\
    if host_matches (this s) (in_ s)
    then http.Header_ sent !! "Authorization" =
           Some ["Bearer " +:+ authn.Token (bearer (this s))] /\
         url.Scheme (http.URL sent) = scheme (this s)
    else http.Header_ sent !! "Authorization" =
           http.Header_ (in_ s) !! "Authorization" /\
         url.Scheme (http.URL sent) = url.Scheme (http.URL (in_ s)).
Proof.
  destruct (sendRequest_eq s) as (sent & -> & _ & _ & _ & Hsent).
  exists sent. by repeat split.
Qed.

Lemma sendRequest_frame s :
  this (sendRequest s).2 = this s /\
  refreshes (trace (sendRequest s).2) = refreshes (trace s) /\
  sends (trace (sendRequest s).2) = sends (trace s) + 1.
Proof.
  destruct (sendRequest_eq s) as (sent & -> & _). simpl.
  rewrite refreshes_app, sends_app. unfold refreshes, sends. simpl.
  repeat split; lia.
Qed.


Lemma refreshOauth_eq s :
  refreshOauth s =
  match basic (this s) (world s) with
  | (Err e, w1) => (Err e, entered EvRefreshOauth w1 s)
  | (Ok auth, w1) =>
      match url_Parse (realm (this s)) with
      | Err e => (Err e, entered EvRefreshOauth w1 s)
      | Ok u =>
          let v := oauth_form (this s) auth in
          let target := URL_String u in
          let tr := trace s ++ [EvRefreshOauth; EvPostForm target v] in
          match Client_PostForm (inner (this s)) target v w1 with
          | (Err e, w2) => (Err e, mkState (this s) (in_ s) w2 tr)
          | (Ok resp, w2) => (checked resp, mkState (this s) (in_ s) w2 tr)
          end
      end
  end.
Proof.
  unfold refreshOauth, entered, checked. run.
  destruct (basic _ _) as [[auth|e] w1]; simpl; [|done].
  destruct (url_Parse _) as [u|e]; simpl; [|done].
  rewrite <- app_assoc. simpl.
  destruct (Client_PostForm _ _ _ _) as [[resp|e] w2]; simpl; [|done].
  by destruct (CheckError _ _).
Qed.

Lemma refreshBasic_eq s :
  refreshBasic s =
  match url_Parse (realm (this s)) with
  | Err e => (Err e, entered EvRefreshBasic (world s) s)
  | Ok u =>
      let b := basicTransport (inner (this s)) (basic (this s)) (url.Host u) in
      let target :=
        URL_String (url.set_RawQuery
          (Values_Encode
             {[ "scope" := scopes (this s); "service" := [service (this s)] ]})
          u) in
      let tr := trace s ++ [EvRefreshBasic; EvGet (url.Host u) target] in
      match Client_Get b target (world s) with
      | (Err e, w2) => (Err e, mkState (this s) (in_ s) w2 tr)
      | (Ok resp, w2) => (checked resp, mkState (this s) (in_ s) w2 tr)
      end
  end.
Proof.
  unfold refreshBasic, entered, checked. run.
  destruct (url_Parse _) as [u|e]; simpl; [|done].
  rewrite <- app_assoc. simpl.
  destruct (Client_Get _ _ _) as [[resp|e] w2]; simpl; [|done].
  by destruct (CheckError _ _).
Qed.

Lemma refreshOauth_frame : flow_frame refreshOauth EvRefreshOauth.
Proof.
  intros s. rewrite refreshOauth_eq. unfold entered.
  destruct (basic _ _) as [[auth|e] w1]; simpl;
    [| by repeat split; exists []].
  destruct (url_Parse _) as [u|e]; simpl; [| by repeat split; exists []].
  destruct (Client_PostForm _ _ _ _) as [[resp|e] w2]; simpl;
    repeat split; by eexists [_].
Qed.

Lemma refreshBasic_frame : flow_frame refreshBasic EvRefreshBasic.
Proof.
  intros s. rewrite refreshBasic_eq. unfold entered.
  destruct (url_Parse _) as [u|e]; simpl; [| by repeat split; exists []].
  destruct (Client_Get _ _ _) as [[resp|e] w2]; simpl;
    repeat split; by eexists [_].
Qed.

Lemma flows_frame auth :
  exists e1 e2,
    flow_frame (flows auth).1 e1 /\ flow_frame (flows auth).2 e2 /\
    is_flow e1 = true /\ is_flow e2 = true.
Proof.
  unfold flows. destruct (negb _); simpl;
    eauto 8 using refreshOauth_frame, refreshBasic_frame.
Qed.

Lemma fetch_eq (first second : M (W := W) bytes) s :
  fetch first second s =
  match first s with
  | (Ok b, s2) => (Ok b, s2)
  | (Err _, s2) => second s2
  end.
Proof. unfold fetch. run. by destruct (first s) as [[b|e] s2]. Qed.

Lemma install_eq content s :
  install content s =
  match json_Unmarshal content with
  | Err e => (Err e, s)
  | Ok response =>
      let token :=
        if bool_decide (AccessToken response = "") then Token response
        else AccessToken response in
      if bool_decide (token = "") then
        (Err (Errorf ("no token in bearer response:" +:+ newline +:+ content)), s)
      else
        let credential :=
          if bool_decide (RefreshToken response = "") then basic (this s)
          else authn.FromConfig
                 {| authn.Username := ""; authn.Password := "";
                    authn.IdentityToken := RefreshToken response;
                    authn.RegistryToken := "" |} in
        (Ok tt,
         mkState (set_bearer (authn.mkBearer token)
                    (set_basic credential (this s)))
           (in_ s) (world s) (trace s))
  end.
Proof.
  unfold install. run.
  destruct (json_Unmarshal content) as [response|e]; simpl; [|done].
  destruct (bool_decide (AccessToken response = "")); simpl;
    destruct (bool_decide (_ = "")); simpl; try done;
    destruct (bool_decide (RefreshToken response = "")); simpl; try done.
  all: by destruct s as [[] ? ? ?].
Qed.

Lemma refresh_eq s :
  refresh s =
  match basic (this s) (world s) with
  | (Err e, w1) => (Err e, entered EvRefresh w1 s)
  | (Ok auth, w1) =>
      match fetch (flows auth).1 (flows auth).2 (entered EvRefresh w1 s) with
      | (Ok content, s2) => install content s2
      | (Err e, s2) => (Err e, s2)
      end
  end.
Proof.
  unfold refresh, entered. run.
  destruct (basic _ _) as [[auth|e] w1]; simpl; [|done].
  by destruct (flows auth) as [first second].
Qed.

Lemma is_flow_attempts e evs :
  is_flow e = true -> attempts (e :: evs) = e :: attempts evs.
Proof. unfold attempts. simpl. by intros ->. Qed.

Lemma is_flow_quiet e evs :
  is_flow e = true ->
  sends (e :: evs) = sends evs /\ refreshes (e :: evs) = refreshes evs.
Proof. by destruct e. Qed.

Lemma fetch_frame (first second : M (W := W) bytes) e1 e2 s :
  flow_frame first e1 -> flow_frame second e2 ->
  is_flow e1 = true -> is_flow e2 = true ->
  this (fetch first second s).2 = this s /\
  in_ (fetch first second s).2 = in_ s /\
  exists evs,
    trace (fetch first second s).2 = trace s ++ evs /\
    sends evs = 0 /\ refreshes evs = 0 /\
    attempts evs =
      match first s with (Ok _, _) => [e1] | (Err _, _) => [e1; e2] end.
Proof.
  intros Hfirst Hsecond He1 He2. rewrite fetch_eq.
  destruct (Hfirst s) as (Hbt & Hin & evs & Htr & Hatt & Hsend & Hrefr).
  destruct (is_flow_quiet e1 evs He1) as [Hs1 Hr1].
  destruct (first s) as [[b|e] s2]; simpl in *.
  - repeat split; try done. exists (e1 :: evs).
    rewrite is_flow_attempts, Hatt by done. repeat split; try done; lia.
  - destruct (Hsecond s2) as (Hbt2 & Hin2 & evs2 & Htr2 & Hatt2 & Hsend2 & Hrefr2).
    destruct (is_flow_quiet e2 evs2 He2) as [Hs2 Hr2].
    rewrite Hbt2, Hin2, Htr2, Htr. repeat split; try done.
    exists ((e1 :: evs) ++ e2 :: evs2).
    rewrite sends_app, refreshes_app, attempts_app, !is_flow_attempts by done.
    rewrite Hatt, Hatt2, <- app_assoc. repeat split; try done; lia.
Qed.

(** [install] leaves the request, the world and the trace alone, and on
    an error the transport as well. *)
Lemma install_frame content s :
  in_ (install content s).2 = in_ s /\
  world (install content s).2 = world s /\
  trace (install content s).2 = trace s /\
  forall e, (install content s).1 = Err e -> (install content s).2 = s.
Proof.
  rewrite install_eq.
  destruct (json_Unmarshal content) as [response|e]; simpl; [|done].
  by case_bool_decide.
Qed.

Lemma refresh_frame s :
  in_ (refresh s).2 = in_ s /\
  (forall e, (refresh s).1 = Err e -> this (refresh s).2 = this s) /\
  exists evs,
    trace (refresh s).2 = trace s ++ EvRefresh :: evs /\
    sends evs = 0 /\ refreshes evs = 0.
Proof.
  rewrite refresh_eq.
  destruct (basic _ _) as [[auth|e] w1]; simpl.
  2:{ repeat split; try done. by exists []. }
  destruct (flows_frame auth) as (e1 & e2 & H1 & H2 & He1 & He2).
  destruct (fetch_frame _ _ e1 e2 (entered EvRefresh w1 s) H1 H2 He1 He2)
    as (Hbt & Hin & evs & Htr & Hsend & Hrefr & _).
  destruct (fetch _ _ _) as [[content|e] s2]; simpl in *.
  - destruct (install_frame content s2) as (Hin' & _ & Htr' & Herr).
    rewrite Hin', Htr', Htr, <- app_assoc. repeat split; try done.
    + intros e He. by rewrite (Herr e He).
    + by exists evs.
  - rewrite Htr, <- app_assoc. repeat split; try done. by exists evs.
Qed.


(** C3.  Once the credential provider has answered: with a non-empty
    identity token [refresh] tries the OAuth2 flow first and the basic
    flow only if that fails, otherwise the basic flow first and the
    OAuth2 flow only on its failure; at most two flows are tried, and
    the body of the first flow that succeeds is the one decoded. *)
Theorem refresh_flow_order s auth w1 :
  basic (this s) (world s) = (Ok auth, w1) ->
  (authn.IdentityToken auth <> "" ->
     tries_in_order s (entered EvRefresh w1 s)
       refreshOauth refreshBasic EvRefreshOauth EvRefreshBasic) /\
  (authn.IdentityToken auth = "" ->
     tries_in_order s (entered EvRefresh w1 s)
       refreshBasic refreshOauth EvRefreshBasic EvRefreshOauth).
Proof.
  intros Hauth.
  assert (Hgen : forall first second e1 e2,
    flows auth = (first, second) ->
    flow_frame first e1 -> flow_frame second e2 ->
    is_flow e1 = true -> is_flow e2 = true ->
    tries_in_order s (entered EvRefresh w1 s) first second e1 e2).
  { intros first second e1 e2 Hflows H1 H2 He1 He2. unfold tries_in_order.
    rewrite refresh_eq, Hauth, Hflows. simpl.
    destruct (fetch_frame first second e1 e2 (entered EvRefresh w1 s)
                H1 H2 He1 He2) as (_ & _ & evs & Htr & _ & _ & Hatt).
    rewrite fetch_eq in *.
    destruct (first _) as [[b|e] s2]; simpl in *.
    - destruct (install_frame b s2) as (_ & _ & Htr' & _).
      exists (EvRefresh :: evs). rewrite Htr', Htr, <- app_assoc.
      by repeat split.
    - destruct (second s2) as [[b|e'] s3]; simpl in *.
      + destruct (install_frame b s3) as (_ & _ & Htr' & _).
        exists (EvRefresh :: evs). rewrite Htr', Htr, <- app_assoc.
        by repeat split.
      + exists (EvRefresh :: evs). rewrite Htr, <- app_assoc.
        by repeat split. }
  split; intros Hid.
  - apply Hgen; auto using refreshOauth_frame, refreshBasic_frame.
    unfold flows. by rewrite bool_decide_eq_false_2.
  - apply Hgen; auto using refreshOauth_frame, refreshBasic_frame.
    unfold flows. by rewrite bool_decide_eq_true_2.
Qed.


(** C7.  When the first flow and then the fallback flow both fail,
    [refresh] returns the error of the fallback; the error of the first
    flow is dropped. *)
Theorem refresh_second_error s auth w1 e1 s2 e2 s3 :
  basic (this s) (world s) = (Ok auth, w1) ->
  (flows auth).1 (entered EvRefresh w1 s) = (Err e1, s2) ->
  (flows auth).2 s2 = (Err e2, s3) ->
  refresh s = (Err e2, s3).
Proof.
  intros Hauth H1 H2. by rewrite refresh_eq, Hauth, fetch_eq, H1, H2.
Qed.

Lemma RoundTrip_eq s :
  RoundTrip s =
  match sendRequest s with
  | (Err e, s1) => (Err e, s1)
  | (Ok res, s1) =>
      if bool_decide (http.StatusCode res = http.StatusUnauthorized) then
        match refresh s1 with
        | (Err e, s2) => (Err e, s2)
        | (Ok _, s2) => sendRequest s2
        end
      else (Ok res, s1)
  end.
Proof.
  unfold RoundTrip, bind, ret.
  destruct (sendRequest s) as [[res|e] s1]; [|done].
  case_bool_decide; [|done]. by destruct (refresh s1) as [[[]|e] s2].
Qed.


(** C2 (amended).  When the first response is a 401, exactly one
    refresh is started; if it succeeds the request is sent exactly once
    more and the outcome of that second send is the outcome of
    [RoundTrip], with no further refresh or send; if it fails its error
    is returned and the request is not sent again.  Any other first
    response is returned as it is, with no refresh and no second
    send. *)
Theorem RoundTrip_unauthorized s res s1 :
  sendRequest s = (Ok res, s1) ->
  if bool_decide (http.StatusCode res = http.StatusUnauthorized) then
    refreshes (trace (RoundTrip s).2) = refreshes (trace s) + 1 /\
    match refresh s1 with
    | (Ok _, s2) =>
        RoundTrip s = sendRequest s2 /\
        sends (trace (RoundTrip s).2) = sends (trace s) + 2
    | (Err e, s2) =>
        RoundTrip s = (Err e, s2) /\
        sends (trace (RoundTrip s).2) = sends (trace s) + 1
    end
  else
    RoundTrip s = (Ok res, s1) /\
    refreshes (trace (RoundTrip s).2) = refreshes (trace s) /\
    sends (trace (RoundTrip s).2) = sends (trace s) + 1.
Proof.
  intros Hsend. rewrite RoundTrip_eq, Hsend.
  destruct (sendRequest_frame s) as (_ & Hr1 & Hs1).
  rewrite Hsend in Hr1, Hs1. simpl in Hr1, Hs1.
  case_bool_decide; [|done].
  destruct (refresh_frame s1) as (_ & _ & evs & Htr & Hs2 & Hr2).
  assert (refreshes (trace (refresh s1).2) = refreshes (trace s) + 1) as Hr.
  { rewrite Htr, refreshes_app. change (EvRefresh :: evs) with ([EvRefresh] ++ evs).
    rewrite refreshes_app, Hr2, Hr1. unfold refreshes. simpl. lia. }
  assert (sends (trace (refresh s1).2) = sends (trace s) + 1) as Hs.
  { rewrite Htr, sends_app. change (EvRefresh :: evs) with ([EvRefresh] ++ evs).
    rewrite sends_app, Hs2, Hs1. unfold sends. simpl. lia. }
  destruct (refresh s1) as [[[]|e] s2]; simpl in *.
  - destruct (sendRequest_frame s2) as (_ & Hr3 & Hs3). split; [lia |].
    split; [done | lia].
  - done.
Qed.


(** C4.  For a fetched body that decodes: a non-empty [access_token]
    becomes the bearer token, whatever [token] holds; with an empty
    [access_token] a non-empty [token] becomes the bearer token; with
    both empty [refresh] fails, and the error message ends with the raw
    body. *)
Theorem refresh_token_precedence s auth w1 content s2 response :
  basic (this s) (world s) = (Ok auth, w1) ->
  fetch (flows auth).1 (flows auth).2 (entered EvRefresh w1 s)
    = (Ok content, s2) ->
  json_Unmarshal content = Ok response ->
  (AccessToken response <> "" ->
     exists s', refresh s = (Ok tt, s') /\
       bearer (this s') = authn.mkBearer (AccessToken response)) /\
  (AccessToken response = "" -> Token response <> "" ->
     exists s', refresh s = (Ok tt, s') /\
       bearer (this s') = authn.mkBearer (Token response)) /\
  (AccessToken response = "" -> Token response = "" ->
     refresh s =
       (Err (Errorf ("no token in bearer response:" +:+ newline +:+ content)),
        s2)).
Proof.
  intros Hauth Hfetch Hjson.
  rewrite refresh_eq, Hauth, Hfetch, install_eq, Hjson. simpl.
  repeat split.
  - intros Ha. rewrite (bool_decide_eq_false_2 _ Ha).
    rewrite (bool_decide_eq_false_2 _ Ha). eauto.
  - intros Ha Ht. rewrite (bool_decide_eq_true_2 _ Ha).
    rewrite (bool_decide_eq_false_2 _ Ht). eauto.
  - intros Ha Ht. rewrite (bool_decide_eq_true_2 _ Ha).
    by rewrite (bool_decide_eq_true_2 _ Ht).
Qed.

(** Past the OAuth2 flow, whether its body is installed or the basic
    flow is fallen back on, the trace only grows. *)
Lemma fallback_trace (r : result bytes) s2 :
  exists evs,
    trace (match r with
           | Ok content => install content s2
           | Err _ =>
               match refreshBasic s2 with
               | (Ok content, s3) => install content s3
               | (Err e, s3) => (Err e, s3)
               end
           end).2 = trace s2 ++ evs.
Proof.
  destruct r as [content|e].
  - exists []. destruct (install_frame content s2) as (_ & _ & -> & _).
    by rewrite app_nil_r.
  - destruct (refreshBasic_frame s2) as (_ & _ & evs & Htr & _).
    exists (EvRefreshBasic :: evs).
    destruct (refreshBasic s2) as [[content|e'] s3]; simpl in *; [|done].
    by destruct (install_frame content s3) as (_ & _ & -> & _).
Qed.

(** With an identity token as the stored credential, a refresh starts
    with the OAuth2 flow and posts that token as [refresh_token]; what it
    returns is decided by the answer of [Client_PostForm] to that form. *)
Lemma refresh_presents_identity_token s R u :
  R <> "" ->
  basic (this s) =
    authn.FromConfig {| authn.Username := ""; authn.Password := "";
                        authn.IdentityToken := R; authn.RegistryToken := "" |} ->
  url_Parse (realm (this s)) = Ok u ->
  exists v evs,
    trace (refresh s).2 =
      trace s ++ EvRefresh :: EvRefreshOauth :: EvPostForm (URL_String u) v :: evs /\
    v !! "grant_type" = Some ["refresh_token"] /\
    v !! "refresh_token" = Some [R] /\
    v !! "username" = None /\ v !! "password" = None /\
    refresh s =
      match Client_PostForm (inner (this s)) (URL_String u) v (world s) with
      | (Ok resp, w2) =>
          match checked resp with
          | Ok content => install content (after_post s (URL_String u) v w2)
          | Err _ => basic_fallback (after_post s (URL_String u) v w2)
          end
      | (Err _, w2) => basic_fallback (after_post s (URL_String u) v w2)
      end.
Proof.
  intros HR Hbasic Hrealm.
  set (cfg := {| authn.Username := ""; authn.Password := "";
                 authn.IdentityToken := R; authn.RegistryToken := "" |}) in *.
  exists (oauth_form (this s) cfg).
  assert (Hflows : flows cfg = (refreshOauth, refreshBasic)).
  { unfold flows. simpl. by rewrite bool_decide_eq_false_2. }
  assert (Hform : oauth_form (this s) cfg =
    url.Set_ "refresh_token" R (url.Set_ "grant_type" "refresh_token"
      (url.Set_ "client_id" transportName (url.Set_ "service" (service (this s))
        (url.Set_ "scope" (Join (scopes (this s)) " ") ∅))))).
  { unfold oauth_form. simpl. by rewrite bool_decide_eq_false_2. }
  assert (Hfields :
    oauth_form (this s) cfg !! "grant_type" = Some ["refresh_token"] /\
    oauth_form (this s) cfg !! "refresh_token" = Some [R] /\
    oauth_form (this s) cfg !! "username" = None /\
    oauth_form (this s) cfg !! "password" = None).
  { rewrite Hform. unfold url.Set_. by simplify_map_eq. }
  assert (Hrun : refresh s =
    match Client_PostForm (inner (this s)) (URL_String u)
            (oauth_form (this s) cfg) (world s) with
    | (Ok resp, w2) =>
        match checked resp with
        | Ok content =>
            install content
              (after_post s (URL_String u) (oauth_form (this s) cfg) w2)
        | Err _ =>
            basic_fallback
              (after_post s (URL_String u) (oauth_form (this s) cfg) w2)
        end
    | (Err _, w2) =>
        basic_fallback
          (after_post s (URL_String u) (oauth_form (this s) cfg) w2)
    end).
  { rewrite refresh_eq, Hbasic. unfold authn.FromConfig at 1.
    rewrite Hflows, fetch_eq. simpl.
    rewrite refreshOauth_eq. simpl. rewrite Hbasic. unfold authn.FromConfig at 1.
    rewrite Hrealm. simpl. unfold after_post, basic_fallback.
    rewrite <- !app_assoc. simpl.
    destruct (Client_PostForm _ _ _ _) as [[resp|e] w2]; simpl; [| done].
    by destruct (checked resp). }
  assert (Htrace : exists evs,
    trace (refresh s).2 =
      trace s ++ EvRefresh :: EvRefreshOauth ::
        EvPostForm (URL_String u) (oauth_form (this s) cfg) :: evs).
  { rewrite Hrun.
    destruct (Client_PostForm _ _ _ _) as [[resp|e] w2].
    - destruct (fallback_trace (checked resp)
        (after_post s (URL_String u) (oauth_form (this s) cfg) w2))
        as [evs Hevs].
      exists evs. unfold basic_fallback.
      destruct (checked resp); (etrans; [exact Hevs |]); simpl;
        by rewrite <- !app_assoc.
    - destruct (fallback_trace (Err e)
        (after_post s (URL_String u) (oauth_form (this s) cfg) w2))
        as [evs Hevs].
      exists evs. unfold basic_fallback.
      etrans; [exact Hevs |]. simpl. by rewrite <- !app_assoc. }
  destruct Htrace as [evs Htrace], Hfields as (Hg & Hr & Hu & Hp).
  exists evs. by repeat split.
Qed.


(** C5.  A refresh that obtains a token and a non-empty
    [refresh_token] stores the identity-token credential built from it;
    any refresh that runs with that credential stored starts with the
    OAuth2 flow and posts the rotated token as [refresh_token], with no
    username or password, through [Client_PostForm], whose answer to that
    form decides what the refresh returns.  With an empty [refresh_token]
    the stored credential stays as it was. *)
Theorem refresh_rotates_credential s auth w1 content s2 response :
  basic (this s) (world s) = (Ok auth, w1) ->
  fetch (flows auth).1 (flows auth).2 (entered EvRefresh w1 s)
    = (Ok content, s2) ->
  json_Unmarshal content = Ok response ->
  AccessToken response <> "" \/ Token response <> "" ->
  exists s',
    refresh s = (Ok tt, s') /\
    (RefreshToken response = "" -> basic (this s') = basic (this s)) /\
    (RefreshToken response <> "" ->
       basic (this s') = identity_credential (RefreshToken response) /\
       forall t u,
         basic (this t) = basic (this s') ->
         url_Parse (realm (this t)) = Ok u ->
         exists v evs,
           trace (refresh t).2 =
             trace t ++ EvRefresh :: EvRefreshOauth ::
               EvPostForm (URL_String u) v :: evs /\
           v !! "grant_type" = Some ["refresh_token"] /\
           v !! "refresh_token" = Some [RefreshToken response] /\
           v !! "username" = None /\ v !! "password" = None /\
           refresh t =
             match Client_PostForm (inner (this t)) (URL_String u) v (world t) with
             | (Ok resp, w2) =>
                 match checked resp with
                 | Ok content =>
                     install content (after_post t (URL_String u) v w2)
                 | Err _ => basic_fallback (after_post t (URL_String u) v w2)
                 end
             | (Err _, w2) => basic_fallback (after_post t (URL_String u) v w2)
             end).
Proof.
  intros Hauth Hfetch Hjson Htoken.
  destruct (flows_frame auth) as (e1 & e2 & H1 & H2 & He1 & He2).
  destruct (fetch_frame _ _ e1 e2 (entered EvRefresh w1 s) H1 H2 He1 He2)
    as (Hbt & _).
  rewrite Hfetch in Hbt. simpl in Hbt.
  rewrite refresh_eq, Hauth, Hfetch, install_eq, Hjson. simpl.
  rewrite bool_decide_eq_false_2.
  2:{ case_bool_decide; [|done]. by destruct Htoken. }
  eexists. split; [reflexivity |]. simpl. split.
  - intros HR. by rewrite (bool_decide_eq_true_2 _ HR), Hbt.
  - intros HR. rewrite (bool_decide_eq_false_2 _ HR). split; [done |].
    intros t u Ht Hu.
    by apply refresh_presents_identity_token.
Qed.




(** C9 (amended).  With the credential at hand and a realm that parses,
    [refreshOauth] posts one form, through [Client_PostForm], to the realm
    URL as it was parsed: nothing is put in its query, and a query that
    the realm carries is kept.  A response with status 200 gives what
    reading its body gives; any other status gives the classified error
    with the status and body of the response. *)
Theorem refreshOauth_post s auth w1 u :
  basic (this s) (world s) = (Ok auth, w1) ->
  url_Parse (realm (this s)) = Ok u ->
  exists v,
    trace (refreshOauth s).2 =
      trace s ++ [EvRefreshOauth; EvPostForm (URL_String u) v] /\
    forall resp w2,
      Client_PostForm (inner (this s)) (URL_String u) v w1 = (Ok resp, w2) ->
      world (refreshOauth s).2 = w2 /\
      if bool_decide (http.StatusCode resp = http.StatusOK)
      then (refreshOauth s).1 = ioutil.ReadAll resp
      else (refreshOauth s).1 =
             Err (StatusError (http.StatusCode resp) (http.RespBody resp)).
Proof.
  intros Hauth Hrealm. exists (oauth_form (this s) auth).
  rewrite refreshOauth_eq, Hauth, Hrealm. simpl. split.
  - by destruct (Client_PostForm _ _ _ _) as [[resp|e] w2].
  - intros resp w2 ->. simpl. split; [done |]. unfold checked, CheckError.
    by case_bool_decide.
Qed.


(** C10.  With neither an identity token nor both a username and a
    password, [refreshOauth] still posts: it calls [Client_PostForm], whose
    answer gives the world it leaves and the result it returns.  The form
    it posts has the fields [scope], [service] and [client_id] and no
    other. *)
Theorem refreshOauth_without_grant s auth w1 u :
  basic (this s) (world s) = (Ok auth, w1) ->
  url_Parse (realm (this s)) = Ok u ->
  authn.IdentityToken auth = "" ->
  authn.Username auth = "" \/ authn.Password auth = "" ->
  exists v,
    trace (refreshOauth s).2 =
      trace s ++ [EvRefreshOauth; EvPostForm (URL_String u) v] /\
    dom v = {[ "scope"; "service"; "client_id" ]} /\
    v !! "scope" = Some [Join (scopes (this s)) " "] /\
    v !! "service" = Some [service (this s)] /\
    v !! "client_id" = Some [transportName] /\
    world (refreshOauth s).2 =
      (Client_PostForm (inner (this s)) (URL_String u) v w1).2 /\
    (refreshOauth s).1 =
      match (Client_PostForm (inner (this s)) (URL_String u) v w1).1 with
      | Ok resp => checked resp
      | Err e => Err e
      end.
Proof.
  intros Hauth Hrealm Hid Hup. exists (oauth_form (this s) auth).
  assert (Hform :
    dom (oauth_form (this s) auth) = {[ "scope"; "service"; "client_id" ]} /\
    oauth_form (this s) auth !! "scope" = Some [Join (scopes (this s)) " "] /\
    oauth_form (this s) auth !! "service" = Some [service (this s)] /\
    oauth_form (this s) auth !! "client_id" = Some [transportName]).
  { unfold oauth_form. rewrite (bool_decide_eq_true_2 _ Hid). simpl.
    assert (negb (bool_decide (authn.Username auth = ""))
            && negb (bool_decide (authn.Password auth = "")) = false) as ->.
    { destruct Hup as [Hu|Hp].
      - by rewrite (bool_decide_eq_true_2 _ Hu).
      - rewrite (bool_decide_eq_true_2 _ Hp). apply andb_false_r. }
    unfold url.Set_. rewrite !dom_insert_L, dom_empty_L.
    split; [set_solver |]. by simplify_map_eq. }
  destruct Hform as (Hdom & Hscope & Hservice & Hclient).
  rewrite refreshOauth_eq, Hauth, Hrealm. simpl.
  destruct (Client_PostForm _ _ _ _) as [[resp|e] w2]; by repeat split.
Qed.

End Dispatcher.

(** ** The transport at work *)

Import Scenario.

(** A request for the registry leaves with the bearer token and the
    registry's scheme. *)
Lemma sendRequest_authorization_witness :
  exists sent,
    trace (sendRequest expired).2 = [EvRoundTrip sent] /\
    http.Header_ sent !! "Authorization" = Some ["Bearer stale"] /\
    url.Scheme (http.URL sent) = "https".
Proof.
  destruct (sendRequest_authorization expired) as (sent & Htr & _ & Hsent).
  exists sent. split; [exact Htr |]. exact Hsent.
Defined.

(** The token service turns both flows down: the request is not sent a
    second time. *)
Lemma RoundTrip_not_resent : ~ retries_once_on_401 rejected.
Proof.
  intros Hclaim.
  destruct (Hclaim (http.mkResponse 401 "" None) (sendRequest rejected).2)
    as [_ Hsends].
  - vm_compute. reflexivity.
  - reflexivity.
  - vm_compute in Hsends. discriminate Hsends.
Qed.

(** A 401, a refresh that succeeds, and the second send goes through. *)
Lemma RoundTrip_unauthorized_witness :
  sendRequest expired = (Ok (http.mkResponse 401 "" None), (sendRequest expired).2) /\
  refreshes (trace (RoundTrip expired).2) = 1 /\
  sends (trace (RoundTrip expired).2) = 2 /\
  (RoundTrip expired).1 = Ok (http.mkResponse 200 "manifest" None).
Proof.
  assert (Hsend : sendRequest expired =
            (Ok (http.mkResponse 401 "" None), (sendRequest expired).2))
    by (vm_compute; reflexivity).
  pose proof (RoundTrip_unauthorized expired _ _ Hsend) as H.
  split; [exact Hsend |].
  change (bool_decide (http.StatusCode (http.mkResponse 401 "" None) =
                       http.StatusUnauthorized)) with true in H.
  destruct H as [Hr H]. split; [exact Hr |].
  split; vm_compute; reflexivity.
Defined.

(** With an identity token the OAuth2 flow goes first; it fails here and
    the basic flow is fallen back on. *)
Lemma refresh_flow_order_witness :
  basic (this (fresh identity [answer 500 "oops"; answer 200 "{token:B}"]))
    [answer 500 "oops"; answer 200 "{token:B}"]
  = (Ok (config "" "" "idtoken"), [answer 500 "oops"; answer 200 "{token:B}"]) /\
  tries_in_order (fresh identity [answer 500 "oops"; answer 200 "{token:B}"])
    (entered EvRefresh [answer 500 "oops"; answer 200 "{token:B}"]
       (fresh identity [answer 500 "oops"; answer 200 "{token:B}"]))
    refreshOauth refreshBasic EvRefreshOauth EvRefreshBasic.
Proof.
  split; [reflexivity |].
  apply (refresh_flow_order
           (fresh identity [answer 500 "oops"; answer 200 "{token:B}"])
           (config "" "" "idtoken") _ eq_refl).
  discriminate.
Defined.

(** A body with both fields: [access_token] wins. *)
Lemma refresh_token_precedence_witness :
  json_Unmarshal "{access_token:A,token:B}" = Ok (mkTokenResponse "B" "A" "") /\
  exists s',
    refresh (fresh password [answer 200 "{access_token:A,token:B}"]) = (Ok tt, s') /\
    bearer (this s') = authn.mkBearer "A".
Proof.
  split; [reflexivity |].
  set (s := fresh password [answer 200 "{access_token:A,token:B}"]).
  set (s1 := entered EvRefresh [answer 200 "{access_token:A,token:B}"] s).
  destruct (refresh_token_precedence s (config "user" "secret" "")
              [answer 200 "{access_token:A,token:B}"]
              "{access_token:A,token:B}"
              (fetch refreshBasic refreshOauth s1).2
              (mkTokenResponse "B" "A" "")) as (Haccess & _).
  - reflexivity.
  - vm_compute. reflexivity.
  - reflexivity.
  - apply Haccess. discriminate.
Defined.

(** A body with a refresh token: the password gives way to it, and the
    next refresh posts it. *)
Lemma refresh_rotates_credential_witness :
  json_Unmarshal "{token:B,refresh_token:R}" = Ok (mkTokenResponse "B" "" "R") /\
  exists s',
    refresh (fresh password
               [answer 200 "{token:B,refresh_token:R}"; answer 200 "{token:B}"])
    = (Ok tt, s') /\
    basic (this s') = identity_credential "R" /\
    exists v evs,
      trace (refresh s').2 =
        trace s' ++ EvRefresh :: EvRefreshOauth ::
          EvPostForm "https://auth.gcr.io/token" v :: evs /\
      v !! "refresh_token" = Some ["R"].
Proof.
  split; [reflexivity |].
  set (s := fresh password
              [answer 200 "{token:B,refresh_token:R}"; answer 200 "{token:B}"]).
  set (s1 := entered EvRefresh
               [answer 200 "{token:B,refresh_token:R}"; answer 200 "{token:B}"] s).
  destruct (refresh_rotates_credential s (config "user" "secret" "")
              [answer 200 "{token:B,refresh_token:R}"; answer 200 "{token:B}"]
              "{token:B,refresh_token:R}"
              (fetch refreshBasic refreshOauth s1).2
              (mkTokenResponse "B" "" "R")) as (s' & Hrefresh & _ & Hrot).
  - reflexivity.
  - vm_compute. reflexivity.
  - reflexivity.
  - right. discriminate.
  - assert (HR : RefreshToken (mkTokenResponse "B" "" "R") <> "") by discriminate.
    destruct (Hrot HR) as [Hbasic Hnext].
    exists s'. split; [exact Hrefresh |]. split; [exact Hbasic |].
    assert (Hs' : s' = (refresh s).2) by (by rewrite Hrefresh).
    assert (Hrealm : url_Parse (realm (this s')) = Ok realm_url)
      by (rewrite Hs'; vm_compute; reflexivity).
    destruct (Hnext s' realm_url eq_refl Hrealm)
      as (v & evs & Htrace & _ & Htoken & _).
    exists v, evs. split; [exact Htrace | exact Htoken].
Defined.

(** The basic flow meets a 500 and the OAuth2 flow a 403: the 403 is
    reported. *)
Lemma refresh_second_error_witness :
  basic (this (fresh password [answer 500 "first"; answer 403 "second"]))
    [answer 500 "first"; answer 403 "second"]
  = (Ok (config "user" "secret" ""), [answer 500 "first"; answer 403 "second"]) /\
  (refresh (fresh password [answer 500 "first"; answer 403 "second"])).1
  = Err (StatusError 403 "second").
Proof.
  split; [reflexivity |].
  set (s := fresh password [answer 500 "first"; answer 403 "second"]).
  set (s1 := entered EvRefresh [answer 500 "first"; answer 403 "second"] s).
  rewrite (refresh_second_error s (config "user" "secret" "")
             [answer 500 "first"; answer 403 "second"]
             (StatusError 500 "first") (refreshBasic s1).2
             (StatusError 403 "second") (refreshOauth (refreshBasic s1).2).2).
  - reflexivity.
  - reflexivity.
  - vm_compute. reflexivity.
  - vm_compute. reflexivity.
Defined.


(** The form goes to the realm as parsed, and a 200 gives the body. *)
Lemma refreshOauth_post_witness :
  basic (this (fresh password [answer 200 "{token:B}"])) [answer 200 "{token:B}"]
  = (Ok (config "user" "secret" ""), [answer 200 "{token:B}"]) /\
  url_Parse (realm (this (fresh password [answer 200 "{token:B}"]))) = Ok realm_url /\
  exists v,
    trace (refreshOauth (fresh password [answer 200 "{token:B}"])).2
    = [EvRefreshOauth; EvPostForm "https://auth.gcr.io/token" v] /\
    (refreshOauth (fresh password [answer 200 "{token:B}"])).1 = Ok "{token:B}".
Proof.
  assert (Hrealm : url_Parse (realm (this (fresh password [answer 200 "{token:B}"])))
                   = Ok realm_url) by reflexivity.
  split; [reflexivity |]. split; [exact Hrealm |].
  destruct (refreshOauth_post (fresh password [answer 200 "{token:B}"])
              (config "user" "secret" "") [answer 200 "{token:B}"] realm_url
              eq_refl Hrealm) as (v & Htr & Hresp).
  exists v. split; [exact Htr |].
  apply (Hresp (http.mkResponse 200 "{token:B}" None) []). reflexivity.
Defined.

(** A realm with a query of its own: the POST goes to the realm with that
    query. *)
Lemma refreshOauth_posts_query : ~ posts_without_query queried.
Proof.
  intros Hclaim.
  assert (Htrace : trace (refreshOauth queried).2 =
            [EvRefreshOauth;
             EvPostForm "https://auth.gcr.io/token?foo=bar"
               (oauth_form (this queried) (config "user" "secret" ""))])
    by (vm_compute; reflexivity).
  specialize (Hclaim "https://auth.gcr.io/token?foo=bar"
                (oauth_form (this queried) (config "user" "secret" ""))).
  rewrite Htrace in Hclaim.
  assert (Hin : EvPostForm "https://auth.gcr.io/token?foo=bar"
                  (oauth_form (this queried) (config "user" "secret" ""))
                ∈ [EvRefreshOauth;
                   EvPostForm "https://auth.gcr.io/token?foo=bar"
                     (oauth_form (this queried) (config "user" "secret" ""))])
    by (apply elem_of_cons; right; apply elem_of_cons; by left).
  apply Hclaim in Hin. vm_compute in Hin. discriminate Hin.
Qed.

(** An anonymous credential: the POST is made, with three fields. *)
Lemma refreshOauth_without_grant_witness :
  basic (this (fresh anonymous [answer 200 "{token:B}"])) [answer 200 "{token:B}"]
  = (Ok (config "" "" ""), [answer 200 "{token:B}"]) /\
  exists v,
    trace (refreshOauth (fresh anonymous [answer 200 "{token:B}"])).2
    = [EvRefreshOauth; EvPostForm "https://auth.gcr.io/token" v] /\
    dom v = {[ "scope"; "service"; "client_id" ]}.
Proof.
  assert (Hrealm : url_Parse (realm (this (fresh anonymous [answer 200 "{token:B}"])))
                   = Ok realm_url) by reflexivity.
  split; [reflexivity |].
  destruct (refreshOauth_without_grant (fresh anonymous [answer 200 "{token:B}"])
              (config "" "" "") [answer 200 "{token:B}"] realm_url
              eq_refl Hrealm eq_refl (or_introl eq_refl))
    as (v & Htr & Hdom & _).
  exists v. split; [exact Htr | exact Hdom].
Defined.

(** * Further properties *)

(** ** More on host canonicalization *)

Lemma portMap_at_other scheme :
  scheme <> "http" -> scheme <> "https" -> portMap_at scheme = "".
Proof.
  intros Hh Hs. unfold portMap_at, portMap.
  by rewrite lookup_insert_ne, lookup_singleton_ne.
Qed.

Lemma JoinHostPort_has_colon h p :
  1 <= CountString (net.JoinHostPort h p) byte_colon.
Proof.
  unfold net.JoinHostPort. destruct (IndexByteString h byte_colon).
  - rewrite CountString_bracket. lia.
  - rewrite CountString_plain. lia.
Qed.

Lemma bracketed_name_no_colon s :
  bracketed_name s -> CountString s byte_colon = 0.
Proof.
  intros (x & -> & Hc & _). simpl. rewrite CountString_app. simpl.
  apply Index_None_Count in Hc. lia.
Qed.

Lemma Contains_no_rbrack s :
  IndexByteString s byte_rbrack = None -> Contains s "]:" = false.
Proof.
  induction s as [|a s IH]; [done |].
  change (Contains (String a s) "]:")
    with ((if Ascii.ascii_dec byte_rbrack a then String.prefix ":" s else false)
          || Contains s "]:").
  change (IndexByteString (String a s) byte_rbrack)
    with (if Ascii.eqb a byte_rbrack then Some 0
          else match IndexByteString s byte_rbrack with
               | Some i => Some (S i)
               | None => None
               end).
  destruct (Ascii.eqb a byte_rbrack) eqn:Ea; [done |].
  destruct (IndexByteString s byte_rbrack); [done |]. intros _.
  rewrite IH by done. rewrite orb_false_r.
  destruct (Ascii.ascii_dec byte_rbrack a) as [<-|]; [|done].
  by rewrite Ascii.eqb_refl in Ea.
Qed.

(** A string with exactly one [c] is what stands before it, [c], and
    what stands after it. *)
Lemma CountString_one s c :
  CountString s c = 1 ->
  exists a b, s = a +:+ String c b /\
    IndexByteString a c = None /\ IndexByteString b c = None.
Proof.
  intros Hone.
  destruct (last s c) as [i|] eqn:Hlast.
  2:{ apply last_None, Index_None_Count in Hlast. lia. }
  pose proof (last_slice_from _ _ _ Hlast) as Hb.
  pose proof (last_Some_from _ _ _ Hlast) as Hfrom.
  exists (slice_to i s), (slice_from (i + 1) s).
  assert (Hs : s = slice_to i s +:+ String c (slice_from (i + 1) s)).
  { by rewrite <- Hfrom, slice_to_from. }
  split; [exact Hs |]. split; [| exact Hb].
  apply Index_None_Count. rewrite Hs in Hone at 1.
  rewrite CountString_app in Hone. simpl in Hone.
  rewrite Ascii.eqb_refl in Hone. lia.
Qed.

(** A host and a port without colon or bracket, joined by a colon, split
    back into the two. *)
Lemma SplitHostPort_plain_Ok a b :
  IndexByteString a byte_colon = None ->
  IndexByteString a byte_lbrack = None ->
  IndexByteString a byte_rbrack = None ->
  IndexByteString b byte_colon = None ->
  IndexByteString b byte_lbrack = None ->
  IndexByteString b byte_rbrack = None ->
  net.SplitHostPort (a +:+ ":" +:+ b) = Ok (a, b).
Proof.
  intros Hac Hal Har Hbc Hbl Hbr.
  rewrite SplitHostPort_plain; [| done | done |].
  2:{ apply get_0_free, Index_app_None. split; [done |]. simpl. by rewrite Hbl. }
  rewrite (proj2 (Index_app_None a (":" +:+ b) byte_lbrack)).
  2:{ split; [done |]. simpl. by rewrite Hbl. }
  rewrite (proj2 (Index_app_None a (":" +:+ b) byte_rbrack)).
  2:{ split; [done |]. simpl. by rewrite Hbr. }
  done.
Qed.

Section CanonicalMore.
Context {W : Type} (bt : bearerTransport W).

Lemma canonicalAddress_default host :
  IndexByteString host byte_colon = None ->
  canonicalAddress bt host = host +:+ ":" +:+ portMap_at (scheme bt).
Proof.
  intros Hc. rewrite canonicalAddress_join by (left; by apply Index_None_Count).
  by apply JoinHostPort_plain.
Qed.

Lemma canonicalAddress_default_inj a b :
  IndexByteString a byte_colon = None ->
  IndexByteString b byte_colon = None ->
  canonicalAddress bt a = canonicalAddress bt b <-> a = b.
Proof.
  intros Ha Hb. split; [| by intros ->].
  rewrite !canonicalAddress_default by done. intros Heq.
  apply app_colon_inj in Heq as [Heq _]; [done | |];
    apply portMap_at_free; auto.
Qed.

Lemma canonicalAddress_keeps_port h p :
  IndexByteString h byte_colon = None ->
  IndexByteString h byte_lbrack = None ->
  IndexByteString h byte_rbrack = None ->
  IndexByteString p byte_colon = None ->
  IndexByteString p byte_lbrack = None ->
  IndexByteString p byte_rbrack = None ->
  canonicalAddress bt (h +:+ ":" +:+ p) = h +:+ ":" +:+ fill bt p.
Proof.
  intros Hhc Hhl Hhr Hpc Hpl Hpr.
  rewrite canonicalAddress_split.
  2:{ left. rewrite CountString_plain.
      apply Index_None_Count in Hhc, Hpc. lia. }
  rewrite SplitHostPort_plain_Ok by done.
  by apply JoinHostPort_plain.
Qed.

Lemma canonicalAddress_bare_v6 host :
  2 <= CountString host byte_colon -> Contains host "]:" = false ->
  canonicalAddress bt host = "[" +:+ host +:+ "]:" +:+ portMap_at (scheme bt).
Proof.
  intros H2 Hc. rewrite canonicalAddress_join by auto.
  destruct (IndexByteString host byte_colon) as [c|] eqn:Hsc.
  - by apply (JoinHostPort_colon host _ c).
  - apply Index_None_Count in Hsc. lia.
Qed.

Lemma canonicalAddress_has_colon host :
  1 <= CountString (canonicalAddress bt host) byte_colon.
Proof.
  unfold canonicalAddress.
  destruct (bool_decide (CountString host byte_colon = 1)
            || bool_decide (2 <= CountString host byte_colon)
               && Contains host "]:") eqn:Hcond.
  - destruct (net.SplitHostPort host) as [[h p]|e].
    + apply JoinHostPort_has_colon.
    + apply orb_true_iff in Hcond as [H1|H2].
      * apply bool_decide_eq_true in H1. lia.
      * apply andb_true_iff in H2 as [H2 _].
        apply bool_decide_eq_true in H2. lia.
  - apply JoinHostPort_has_colon.
Qed.

(** X1.  A host without a colon gets the default port of the scheme:
    [:80] under [http], [:443] under [https], and an empty port under any
    other scheme, for which [portMap] has no entry. *)
Theorem canonicalAddress_port_less host :
  IndexByteString host byte_colon = None ->
  (scheme bt = "http" -> canonicalAddress bt host = host +:+ ":80") /\
  (scheme bt = "https" -> canonicalAddress bt host = host +:+ ":443") /\
  (scheme bt <> "http" -> scheme bt <> "https" ->
     canonicalAddress bt host = host +:+ ":").
Proof.
  intros Hc. rewrite (canonicalAddress_default host Hc). repeat split.
  - by intros ->.
  - by intros ->.
  - intros Hh Hs. by rewrite portMap_at_other.
Qed.

(** X2.  A host name with a port keeps a port that is not empty, whatever
    the scheme; with an empty port it is canonicalized as the name
    alone. *)
Theorem canonicalAddress_explicit_port h p :
  IndexByteString h byte_colon = None ->
  IndexByteString h byte_lbrack = None ->
  IndexByteString h byte_rbrack = None ->
  IndexByteString p byte_colon = None ->
  IndexByteString p byte_lbrack = None ->
  IndexByteString p byte_rbrack = None ->
  (p <> "" -> canonicalAddress bt (h +:+ ":" +:+ p) = h +:+ ":" +:+ p) /\
  (p = "" -> canonicalAddress bt (h +:+ ":" +:+ p) = canonicalAddress bt h).
Proof.
  intros Hhc Hhl Hhr Hpc Hpl Hpr.
  rewrite canonicalAddress_keeps_port by done. unfold fill. split; intros Hp.
  - by rewrite bool_decide_eq_false_2.
  - rewrite bool_decide_eq_true_2 by done.
    symmetry. by apply canonicalAddress_default.
Qed.

(** X3.  An address with two colons or more and no ["]:"] is taken for a
    bare IPv6 address: it is put in brackets and given the default port.
    A bracketed address with a port keeps the port, or gets the default
    one when the port is empty. *)
Theorem canonicalAddress_v6 host :
  (2 <= CountString host byte_colon -> Contains host "]:" = false ->
   canonicalAddress bt host = "[" +:+ host +:+ "]:" +:+ portMap_at (scheme bt)) /\
  (forall p,
     1 <= CountString host byte_colon ->
     IndexByteString host byte_lbrack = None ->
     IndexByteString host byte_rbrack = None ->
     IndexByteString p byte_colon = None ->
     IndexByteString p byte_lbrack = None ->
     IndexByteString p byte_rbrack = None ->
     canonicalAddress bt ("[" +:+ host +:+ "]:" +:+ p) =
       "[" +:+ host +:+ "]:" +:+
         (if bool_decide (p = "") then portMap_at (scheme bt) else p)).
Proof.
  split; [apply canonicalAddress_bare_v6 |].
  intros p H1 Hl Hr Hpc Hpl Hpr.
  destruct (IndexByteString host byte_colon) as [c|] eqn:Hsc.
  2:{ apply Index_None_Count in Hsc. lia. }
  rewrite canonicalAddress_split.
  2:{ right. rewrite CountString_bracket, Contains_bracket. split; [lia | done]. }
  rewrite SplitHostPort_bracket by done.
  rewrite (proj2 (Index_app_None host ("]:" +:+ p) byte_lbrack)), Hpr.
  2:{ split; [done |]. simpl. by rewrite Hpl. }
  by apply (JoinHostPort_colon host _ c).
Qed.

(** X4.  Whatever the host, its canonical form has a colon, and
    canonicalizing settles after two passes at most. *)
Theorem canonicalAddress_settles host :
  1 <= CountString (canonicalAddress bt host) byte_colon /\
  canonicalAddress bt (canonicalAddress bt (canonicalAddress bt host)) =
  canonicalAddress bt (canonicalAddress bt host).
Proof.
  split; [apply canonicalAddress_has_colon |].
  apply canonicalAddress_idempotent_iff. intros Hname.
  apply bracketed_name_no_colon in Hname.
  pose proof (canonicalAddress_has_colon host). lia.
Qed.

(** X5.  The canonical form of a host without brackets (a name, an IPv4
    or a bare IPv6 address, with a port or without) is a host and port
    that [net.SplitHostPort] takes apart and [net.JoinHostPort] puts
    together again; its port is empty only when the scheme has no default
    port. *)
Theorem canonicalAddress_splits host :
  IndexByteString host byte_lbrack = None ->
  IndexByteString host byte_rbrack = None ->
  exists h p,
    net.SplitHostPort (canonicalAddress bt host) = Ok (h, p) /\
    net.JoinHostPort h p = canonicalAddress bt host /\
    (p = "" -> portMap_at (scheme bt) = "").
Proof.
  intros Hl Hr.
  set (d := portMap_at (scheme bt)).
  assert (Hdc : IndexByteString d byte_colon = None)
    by (apply portMap_at_free; auto).
  assert (Hdl : IndexByteString d byte_lbrack = None)
    by (apply portMap_at_free; auto).
  assert (Hdr : IndexByteString d byte_rbrack = None)
    by (apply portMap_at_free; auto).
  destruct (decide (CountString host byte_colon = 0)) as [H0|H0].
  { assert (Hc : IndexByteString host byte_colon = None)
      by (by apply Index_None_Count).
    rewrite (canonicalAddress_default host Hc). fold d.
    exists host, d. split; [by apply SplitHostPort_plain_Ok |].
    split; [by apply JoinHostPort_plain | done]. }
  destruct (decide (CountString host byte_colon = 1)) as [H1|H1].
  { destruct (CountString_one host byte_colon H1) as (a & b & Hs & Hac & Hbc).
    change (String byte_colon b) with (":" +:+ b) in Hs.
    assert (Hfree : forall c, IndexByteString host c = None ->
              IndexByteString a c = None /\ IndexByteString b c = None).
    { intros c Hc. rewrite Hs in Hc. apply Index_app_None in Hc as [Ha Hb].
      by apply (Index_app_None ":" b c) in Hb as [_ Hb]. }
    destruct (Hfree byte_lbrack Hl) as [Hal Hbl].
    destruct (Hfree byte_rbrack Hr) as [Har Hbr].
    rewrite Hs, canonicalAddress_keeps_port by done.
    exists a, (fill bt b). split.
    - apply SplitHostPort_plain_Ok; auto using fill_free.
    - split; [by apply JoinHostPort_plain |].
      unfold fill. case_bool_decide; [done |]. by intros ->. }
  assert (H2 : 2 <= CountString host byte_colon) by lia.
  rewrite canonicalAddress_bare_v6 by auto using Contains_no_rbrack. fold d.
  destruct (IndexByteString host byte_colon) as [c|] eqn:Hsc.
  2:{ apply Index_None_Count in Hsc. lia. }
  exists host, d. split.
  - rewrite SplitHostPort_bracket by done.
    rewrite (proj2 (Index_app_None host ("]:" +:+ d) byte_lbrack)).
    2:{ split; [done |]. simpl. by rewrite Hdl. }
    by rewrite Hdr.
  - split; [by apply (JoinHostPort_colon host _ c) | done].
Qed.

(** X6.  Between hosts without a port the match is equality of names:
    the request matches exactly when its [Host] field or its URL host is
    the registry host. *)
Theorem host_matches_port_less (inp : http.Request) :
  IndexByteString (http.Host inp) byte_colon = None ->
  IndexByteString (url.Host (http.URL inp)) byte_colon = None ->
  IndexByteString (name.RegistryStr (registry bt)) byte_colon = None ->
  host_matches bt inp = true <->
  http.Host inp = name.RegistryStr (registry bt) \/
  url.Host (http.URL inp) = name.RegistryStr (registry bt).
Proof.
  intros Hh Hu Hr. unfold host_matches.
  rewrite orb_true_iff, !bool_decide_eq_true.
  by rewrite !canonicalAddress_default_inj.
Qed.


End CanonicalMore.

(** ** More on the dispatcher and the refresh *)

Lemma same_target_refl {W} (bt : bearerTransport W) : same_target bt bt.
Proof. by repeat split. Qed.

Lemma same_target_trans {W} (a b c : bearerTransport W) :
  same_target a b -> same_target b c -> same_target a c.
Proof.
  intros (? & ? & ? & ? & ? & ?) (? & ? & ? & ? & ? & ?).
  repeat split; congruence.
Qed.

Lemma canonicalAddress_scheme {W} (bt bt' : bearerTransport W) host :
  scheme bt' = scheme bt -> canonicalAddress bt' host = canonicalAddress bt host.
Proof. intros Hs. unfold canonicalAddress. by rewrite Hs. Qed.

Lemma host_matches_same {W} (bt bt' : bearerTransport W) inp inp' :
  same_target bt bt' ->
  http.Host inp' = http.Host inp ->
  url.Host (http.URL inp') = url.Host (http.URL inp) ->
  host_matches bt' inp' = host_matches bt inp.
Proof.
  intros (_ & Hreg & _ & _ & _ & Hsch) Hh Hu. unfold host_matches.
  by rewrite Hh, Hu, Hreg, !(canonicalAddress_scheme bt bt' _ Hsch).
Qed.

Lemma sends_none evs r : sends evs = 0 -> EvRoundTrip r ∉ evs.
Proof.
  induction evs as [|ev evs IH]; intros Hs Hin.
  - by apply elem_of_nil in Hin.
  - apply elem_of_cons in Hin as [<-|Hin]; [done |].
    apply IH; [| done]. unfold sends in *. simpl in Hs.
    destruct (is_send ev); simpl in Hs; [lia | done].
Qed.

Section DispatcherMore.
Context {W : Type} `{!Collaborators W}.
Implicit Types s : State W.

(** All that [sendRequest] does to the request. *)
Lemma sendRequest_run s :
  exists sent,
    sendRequest s =
      ((inner (this s) sent (world s)).1,
       mkState (this s) sent (inner (this s) sent (world s)).2
         (trace s ++ [EvRoundTrip sent])) /\
    http.Header_ sent !! "User-Agent" = Some [transportName] /\
    (forall key, key <> "Authorization" -> key <> "User-Agent" ->
       http.Header_ sent !! key = http.Header_ (in_ s) !! key) /\
    http.Method sent = http.Method (in_ s) /\
    http.Body sent = http.Body (in_ s) /\
    http.Host sent = http.Host (in_ s) /\
    url.Host (http.URL sent) = url.Host (http.URL (in_ s)) /\
    url.Path (http.URL sent) = url.Path (http.URL (in_ s)) /\
    url.RawQuery (http.URL sent) = url.RawQuery (http.URL (in_ s)) /\
    if host_matches (this s) (in_ s)
    then http.Header_ sent !! "Authorization" =
           Some ["Bearer " +:+ authn.Token (bearer (this s))] /\
         url.Scheme (http.URL sent) = scheme (this s)
    else http.Header_ sent !! "Authorization" =
           http.Header_ (in_ s) !! "Authorization" /\
         url.Scheme (http.URL sent) = url.Scheme (http.URL (in_ s)).
Proof.
  unfold sendRequest, host_matches. run.
  destruct (bool_decide _ || bool_decide _); simpl.
  - match goal with |- context [EvRoundTrip ?r] => exists r end. split.
    { by destruct (inner _ _ _) as [r w]. }
    simpl. unfold http.Header_Set.
    rewrite lookup_insert_eq, lookup_insert_ne by done.
    rewrite lookup_insert_eq. repeat split; try done.
    intros key Ha Hu. by rewrite !lookup_insert_ne.
  - match goal with |- context [EvRoundTrip ?r] => exists r end. split.
    { by destruct (inner _ _ _) as [r w]. }
    simpl. unfold http.Header_Set.
    rewrite lookup_insert_eq, lookup_insert_ne by done. repeat split; try done.
    intros key Ha Hu. by rewrite !lookup_insert_ne.
Qed.

(** X8.  Every request leaves with the [User-Agent] of the transport;
    its other headers, but for [Authorization], its method, body and
    [Host] field, and the host, path and query of its URL are those of the
    request that came in. *)
Theorem sendRequest_preserves s :
  exists sent,
    trace (sendRequest s).2 = trace s ++ [EvRoundTrip sent] /\
    in_ (sendRequest s).2 = sent /\
    http.Header_ sent !! "User-Agent" = Some [transportName] /\
    (forall key, key <> "Authorization" -> key <> "User-Agent" ->
       http.Header_ sent !! key = http.Header_ (in_ s) !! key) /\
    http.Method sent = http.Method (in_ s) /\
    http.Body sent = http.Body (in_ s) /\
    http.Host sent = http.Host (in_ s) /\
    url.Host (http.URL sent) = url.Host (http.URL (in_ s)) /\
    url.Path (http.URL sent) = url.Path (http.URL (in_ s)) /\
    url.RawQuery (http.URL sent) = url.RawQuery (http.URL (in_ s)).
Proof.
  destruct (sendRequest_run s)
    as (sent & -> & Hua & Hkeys & Hm & Hb & Hh & Huh & Hp & Hq & _).
  exists sent. by repeat split.
Qed.

(** [refresh] replaces credentials and nothing else of the transport. *)
Lemma install_target content s : same_target (this s) (this (install content s).2).
Proof.
  rewrite install_eq.
  destruct (json_Unmarshal content) as [response|e]; simpl;
    [| apply same_target_refl].
  case_bool_decide; simpl; [apply same_target_refl | by repeat split].
Qed.

Lemma refresh_target s : same_target (this s) (this (refresh s).2).
Proof.
  rewrite refresh_eq.
  destruct (basic _ _) as [[auth|e] w1]; simpl; [| apply same_target_refl].
  destruct (flows_frame auth) as (e1 & e2 & H1 & H2 & He1 & He2).
  destruct (fetch_frame _ _ e1 e2 (entered EvRefresh w1 s) H1 H2 He1 He2)
    as (Hbt & _).
  destruct (fetch _ _ _) as [[content|e] s2]; simpl in *.
  - rewrite <- Hbt. apply install_target.
  - rewrite Hbt. apply same_target_refl.
Qed.

(** X9.  Whatever happens in a [RoundTrip], the inner transport, the
    registry, the realm, the service, the scopes and the scheme of the
    transport stay as they were. *)
Theorem RoundTrip_keeps_target s :
  same_target (this s) (this (RoundTrip s).2).
Proof.
  rewrite RoundTrip_eq.
  destruct (sendRequest_frame s) as (Hbt & _).
  destruct (sendRequest s) as [[res|e] s1]; simpl in *.
  2:{ rewrite Hbt. apply same_target_refl. }
  case_bool_decide; simpl.
  2:{ rewrite Hbt. apply same_target_refl. }
  pose proof (refresh_target s1) as Hr. rewrite Hbt in Hr.
  destruct (refresh s1) as [[[]|e] s2]; simpl in *; [| done].
  destruct (sendRequest_frame s2) as (-> & _). done.
Qed.

(** X10.  A [RoundTrip] sends the request once or twice and refreshes at
    most once; it sends twice only after a refresh. *)
Theorem RoundTrip_bounded s :
  (sends (trace (RoundTrip s).2) = sends (trace s) + 1 \/
   sends (trace (RoundTrip s).2) = sends (trace s) + 2) /\
  refreshes (trace (RoundTrip s).2) <= refreshes (trace s) + 1 /\
  (sends (trace (RoundTrip s).2) = sends (trace s) + 2 ->
   refreshes (trace (RoundTrip s).2) = refreshes (trace s) + 1).
Proof.
  rewrite RoundTrip_eq.
  destruct (sendRequest_frame s) as (_ & Hr1 & Hs1).
  destruct (sendRequest s) as [[res|e] s1]; simpl in *; [| lia].
  case_bool_decide; simpl; [| lia].
  destruct (refresh_frame s1) as (_ & _ & evs & Htr & Hs2 & Hr2).
  assert (refreshes (trace (refresh s1).2) = refreshes (trace s) + 1) as Hr.
  { rewrite Htr, refreshes_app. change (EvRefresh :: evs) with ([EvRefresh] ++ evs).
    rewrite refreshes_app, Hr2, Hr1. unfold refreshes. simpl. lia. }
  assert (sends (trace (refresh s1).2) = sends (trace s) + 1) as Hs.
  { rewrite Htr, sends_app. change (EvRefresh :: evs) with ([EvRefresh] ++ evs).
    rewrite sends_app, Hs2, Hs1. unfold sends. simpl. lia. }
  destruct (refresh s1) as [[[]|e] s2]; simpl in *; [| lia].
  destruct (sendRequest_frame s2) as (_ & Hr3 & Hs3). lia.
Qed.

(** X11.  When the inner transport fails on the first send, [RoundTrip]
    returns its error: nothing is refreshed, nothing is sent again and the
    transport is as before. *)
Theorem RoundTrip_send_error s e s1 :
  sendRequest s = (Err e, s1) ->
  RoundTrip s = (Err e, s1) /\
  this s1 = this s /\
  refreshes (trace s1) = refreshes (trace s) /\
  sends (trace s1) = sends (trace s) + 1.
Proof.
  intros Hsend. rewrite RoundTrip_eq, Hsend.
  destruct (sendRequest_frame s) as (Hbt & Hr & Hs).
  by rewrite Hsend in Hbt, Hr, Hs.
Qed.

(** The events of a [RoundTrip], and the requests among them. *)
Lemma RoundTrip_requests s :
  exists evs,
    trace (RoundTrip s).2 = trace s ++ evs /\
    forall r, EvRoundTrip r ∈ evs ->
      http.Host r = http.Host (in_ s) /\
      url.Host (http.URL r) = url.Host (http.URL (in_ s)) /\
      if host_matches (this s) (in_ s)
      then (exists token,
              http.Header_ r !! "Authorization" = Some ["Bearer " +:+ token]) /\
           url.Scheme (http.URL r) = scheme (this s)
      else http.Header_ r !! "Authorization" =
             http.Header_ (in_ s) !! "Authorization" /\
           url.Scheme (http.URL r) = url.Scheme (http.URL (in_ s)).
Proof.
  rewrite RoundTrip_eq.
  destruct (sendRequest_run s)
    as (sent & Hrun & _ & _ & _ & _ & Hh & Hu & _ & _ & Hauth).
  assert (Hfirst : forall r, r = sent ->
    http.Host r = http.Host (in_ s) /\
    url.Host (http.URL r) = url.Host (http.URL (in_ s)) /\
    if host_matches (this s) (in_ s)
    then (exists token,
            http.Header_ r !! "Authorization" = Some ["Bearer " +:+ token]) /\
         url.Scheme (http.URL r) = scheme (this s)
    else http.Header_ r !! "Authorization" =
           http.Header_ (in_ s) !! "Authorization" /\
         url.Scheme (http.URL r) = url.Scheme (http.URL (in_ s))).
  { intros r ->. repeat split; try done.
    destruct (host_matches _ _); [| done].
    destruct Hauth as [Ha Hs]. split; [eauto | done]. }
  rewrite Hrun.
  set (s1 := mkState (this s) sent _ _).
  destruct ((inner (this s) sent (world s)).1) as [res|e].
  2:{ exists [EvRoundTrip sent]. split; [done |].
      intros r Hr. apply list_elem_of_singleton in Hr. apply Hfirst. congruence. }
  case_bool_decide.
  2:{ exists [EvRoundTrip sent]. split; [done |].
      intros r Hr. apply list_elem_of_singleton in Hr. apply Hfirst. congruence. }
  destruct (refresh_frame s1) as (Hin & _ & evs & Htr & Hs2 & _).
  pose proof (refresh_target s1) as Htgt.
  destruct (refresh s1) as [[[]|e] s2]; simpl in *.
  - destruct (sendRequest_run s2)
      as (sent2 & Hrun2 & _ & _ & _ & _ & Hh2 & Hu2 & _ & _ & Hauth2).
    rewrite Hrun2. simpl.
    exists (EvRoundTrip sent :: EvRefresh :: evs ++ [EvRoundTrip sent2]).
    split.
    { rewrite Htr. by rewrite <- !app_assoc. }
    intros r Hr.
    apply elem_of_cons in Hr as [Hr|Hr]; [apply Hfirst; congruence |].
    apply elem_of_cons in Hr as [Hr|Hr]; [done |].
    apply elem_of_app in Hr as [Hr|Hr]; [by apply sends_none in Hr |].
    apply list_elem_of_singleton in Hr. injection Hr as ->.
    rewrite Hin in Hh2, Hu2, Hauth2.
    rewrite (host_matches_same (this s) (this s2) (in_ s) sent) in Hauth2
      by done.
    destruct Htgt as (_ & _ & _ & _ & _ & Hsch).
    split; [congruence |]. split; [congruence |].
    destruct (host_matches (this s) (in_ s)).
    + destruct Hauth2 as [Ha Hs]. split; [eexists; exact Ha | congruence].
    + destruct Hauth as [Ha Hs], Hauth2 as [Ha2 Hs2']. split; congruence.
  - exists (EvRoundTrip sent :: EvRefresh :: evs). split.
    { rewrite Htr. by rewrite <- !app_assoc. }
    intros r Hr.
    apply elem_of_cons in Hr as [Hr|Hr]; [apply Hfirst; congruence |].
    apply elem_of_cons in Hr as [Hr|Hr]; [done |].
    by apply sends_none in Hr.
Qed.

(** X12.  When the request's host does not match the registry, no
    request that a [RoundTrip] sends, the first or the one after a
    refresh, has another [Authorization] header or another scheme than the
    request that came in. *)
Theorem RoundTrip_no_token_elsewhere s :
  host_matches (this s) (in_ s) = false ->
  exists evs,
    trace (RoundTrip s).2 = trace s ++ evs /\
    forall r, EvRoundTrip r ∈ evs ->
      http.Header_ r !! "Authorization" = http.Header_ (in_ s) !! "Authorization" /\
      url.Scheme (http.URL r) = url.Scheme (http.URL (in_ s)).
Proof.
  intros Hno. destruct (RoundTrip_requests s) as (evs & Htr & Hreq).
  exists evs. split; [done |]. intros r Hr.
  destruct (Hreq r Hr) as (_ & _ & Hauth). by rewrite Hno in Hauth.
Qed.

(** X13.  After a 401 and a refresh that succeeds, the request for the
    registry is sent again with the token that the refresh has just
    stored, and with the scheme of the transport. *)
Theorem RoundTrip_retry_token s res s1 s2 :
  sendRequest s = (Ok res, s1) ->
  http.StatusCode res = http.StatusUnauthorized ->
  refresh s1 = (Ok tt, s2) ->
  host_matches (this s) (in_ s) = true ->
  exists sent,
    trace (RoundTrip s).2 = trace s2 ++ [EvRoundTrip sent] /\
    http.Header_ sent !! "Authorization" =
      Some ["Bearer " +:+ authn.Token (bearer (this s2))] /\
    url.Scheme (http.URL sent) = scheme (this s).
Proof.
  intros Hsend H401 Hrefresh Hmatch.
  rewrite RoundTrip_eq, Hsend, (bool_decide_eq_true_2 _ H401), Hrefresh.
  destruct (sendRequest_run s)
    as (sent1 & Hrun & _ & _ & _ & _ & Hh & Hu & _).
  rewrite Hrun in Hsend. injection Hsend as _ <-.
  destruct (refresh_frame
              (mkState (this s) sent1 (inner (this s) sent1 (world s)).2
                 (trace s ++ [EvRoundTrip sent1]))) as (Hin & _).
  pose proof (refresh_target
              (mkState (this s) sent1 (inner (this s) sent1 (world s)).2
                 (trace s ++ [EvRoundTrip sent1]))) as Htgt.
  rewrite Hrefresh in Hin, Htgt. simpl in Hin, Htgt.
  destruct (sendRequest_run s2)
    as (sent & Hrun2 & _ & _ & _ & _ & _ & _ & _ & _ & Hauth).
  rewrite (host_matches_same (this s) (this s2) (in_ s) (in_ s2)) in Hauth
    by (rewrite ?Hin; done).
  rewrite Hmatch in Hauth. destruct Hauth as [Ha Hs].
  exists sent. rewrite Hrun2. simpl. split; [done |]. split; [done |].
  destruct Htgt as (_ & _ & _ & _ & _ & Hsch). congruence.
Qed.

(** X14.  After a 401, when the credential provider fails, [RoundTrip]
    returns the provider's error; no token flow is started and the request
    is not sent again. *)
Theorem RoundTrip_provider_error s res s1 e w :
  sendRequest s = (Ok res, s1) ->
  http.StatusCode res = http.StatusUnauthorized ->
  basic (this s1) (world s1) = (Err e, w) ->
  RoundTrip s = (Err e, entered EvRefresh w s1).
Proof.
  intros Hsend H401 Hbasic.
  by rewrite RoundTrip_eq, Hsend, (bool_decide_eq_true_2 _ H401), refresh_eq,
    Hbasic.
Qed.

Lemma refreshBasic_malformed s e :
  url_Parse (realm (this s)) = Err e ->
  refreshBasic s = (Err e, entered EvRefreshBasic (world s) s).
Proof. intros Hrealm. by rewrite refreshBasic_eq, Hrealm. Qed.

Lemma refreshOauth_malformed s e :
  url_Parse (realm (this s)) = Err e ->
  exists e' w, refreshOauth s = (Err e', entered EvRefreshOauth w s).
Proof.
  intros Hrealm. rewrite refreshOauth_eq, Hrealm.
  destruct (basic _ _) as [[auth|e'] w1]; eauto.
Qed.

(** X15.  With a realm that does not parse as a URL, [refresh] fails
    without a single call to the token service, and leaves the transport
    as it was. *)
Theorem refresh_malformed_realm s e :
  url_Parse (realm (this s)) = Err e ->
  exists e' evs,
    (refresh s).1 = Err e' /\
    trace (refresh s).2 = trace s ++ evs /\
    Forall (fun ev => is_network ev = false) evs /\
    this (refresh s).2 = this s.
Proof.
  intros Hrealm. rewrite refresh_eq.
  destruct (basic _ _) as [[auth|e0] w1]; simpl.
  2:{ exists e0, [EvRefresh]. repeat split; try done. by repeat constructor. }
  rewrite fetch_eq. unfold flows.
  destruct (negb _); simpl.
  - destruct (refreshOauth_malformed (entered EvRefresh w1 s) e Hrealm)
      as (e1 & w2 & ->).
    rewrite (refreshBasic_malformed _ e) by done. simpl.
    exists e, [EvRefresh; EvRefreshOauth; EvRefreshBasic].
    rewrite <- !app_assoc. repeat split; try done. by repeat constructor.
  - rewrite (refreshBasic_malformed _ e) by done.
    match goal with
    | |- context [refreshOauth ?st] =>
        destruct (refreshOauth_malformed st e Hrealm) as (e1 & w2 & ->)
    end. simpl.
    exists e1, [EvRefresh; EvRefreshBasic; EvRefreshOauth].
    rewrite <- !app_assoc. repeat split; try done. by repeat constructor.
Qed.

(** X16.  [refreshOauth] returns the error of the credential provider, or
    else that of parsing the realm, without posting anything; when the POST
    itself fails it returns that error. *)
Theorem refreshOauth_errors s :
  (forall e w1,
     basic (this s) (world s) = (Err e, w1) ->
     refreshOauth s = (Err e, entered EvRefreshOauth w1 s)) /\
  (forall auth w1 e,
     basic (this s) (world s) = (Ok auth, w1) ->
     url_Parse (realm (this s)) = Err e ->
     refreshOauth s = (Err e, entered EvRefreshOauth w1 s)) /\
  (forall auth w1 u e w2,
     basic (this s) (world s) = (Ok auth, w1) ->
     url_Parse (realm (this s)) = Ok u ->
     Client_PostForm (inner (this s)) (URL_String u) (oauth_form (this s) auth) w1
       = (Err e, w2) ->
     (refreshOauth s).1 = Err e /\ world (refreshOauth s).2 = w2).
Proof.
  split; [| split].
  - intros e w1 Hb. by rewrite refreshOauth_eq, Hb.
  - intros auth w1 e Hb Hr. by rewrite refreshOauth_eq, Hb, Hr.
  - intros auth w1 u e w2 Hb Hr Hpost.
    rewrite refreshOauth_eq, Hb, Hr. simpl. by rewrite Hpost.
Qed.

(** X17.  A [refresh] leaves the request alone and changes nothing of
    the transport but the two credentials; it sends no request through
    the dispatcher and starts no further refresh. *)
Theorem refresh_keeps_request s :
  in_ (refresh s).2 = in_ s /\
  same_target (this s) (this (refresh s).2) /\
  exists evs,
    trace (refresh s).2 = trace s ++ EvRefresh :: evs /\
    sends evs = 0 /\ refreshes evs = 0.
Proof.
  destruct (refresh_frame s) as (Hin & _ & Hevs).
  split; [done |]. split; [apply refresh_target | done].
Qed.

(** X18.  With an identity token, whether or not a username and a
    password are there too, the form posted is the refresh-token grant:
    [grant_type=refresh_token] and the token, beside [scope], [service]
    and [client_id], and no other field. *)
Theorem refreshOauth_refresh_grant s auth w1 u :
  basic (this s) (world s) = (Ok auth, w1) ->
  url_Parse (realm (this s)) = Ok u ->
  authn.IdentityToken auth <> "" ->
  exists v,
    trace (refreshOauth s).2 =
      trace s ++ [EvRefreshOauth; EvPostForm (URL_String u) v] /\
    dom v = {[ "scope"; "service"; "client_id"; "grant_type"; "refresh_token" ]} /\
    v !! "grant_type" = Some ["refresh_token"] /\
    v !! "refresh_token" = Some [authn.IdentityToken auth] /\
    v !! "scope" = Some [Join (scopes (this s)) " "] /\
    v !! "service" = Some [service (this s)] /\
    v !! "client_id" = Some [transportName].
Proof.
  intros Hauth Hrealm Hid. exists (oauth_form (this s) auth).
  rewrite refreshOauth_eq, Hauth, Hrealm. simpl. split.
  { by destruct (Client_PostForm _ _ _ _) as [[resp|e] w2]. }
  unfold oauth_form. rewrite (bool_decide_eq_false_2 _ Hid). simpl.
  unfold url.Set_. rewrite !dom_insert_L, dom_empty_L.
  split; [set_solver |]. by simplify_map_eq.
Qed.

(** X19.  With no identity token and both a username and a password, the
    form posted is the password grant: [grant_type=password], the
    username, the password and [access_type=offline], beside [scope],
    [service] and [client_id], and no other field. *)
Theorem refreshOauth_password_grant s auth w1 u :
  basic (this s) (world s) = (Ok auth, w1) ->
  url_Parse (realm (this s)) = Ok u ->
  authn.IdentityToken auth = "" ->
  authn.Username auth <> "" ->
  authn.Password auth <> "" ->
  exists v,
    trace (refreshOauth s).2 =
      trace s ++ [EvRefreshOauth; EvPostForm (URL_String u) v] /\
    dom v = {[ "scope"; "service"; "client_id"; "grant_type"; "username";
               "password"; "access_type" ]} /\
    v !! "grant_type" = Some ["password"] /\
    v !! "username" = Some [authn.Username auth] /\
    v !! "password" = Some [authn.Password auth] /\
    v !! "access_type" = Some ["offline"] /\
    v !! "scope" = Some [Join (scopes (this s)) " "] /\
    v !! "service" = Some [service (this s)] /\
    v !! "client_id" = Some [transportName].
Proof.
  intros Hauth Hrealm Hid Hu Hp. exists (oauth_form (this s) auth).
  rewrite refreshOauth_eq, Hauth, Hrealm. simpl. split.
  { by destruct (Client_PostForm _ _ _ _) as [[resp|e] w2]. }
  unfold oauth_form. rewrite (bool_decide_eq_true_2 _ Hid).
  rewrite (bool_decide_eq_false_2 _ Hu), (bool_decide_eq_false_2 _ Hp). simpl.
  unfold url.Set_. rewrite !dom_insert_L, dom_empty_L.
  split; [set_solver |]. by simplify_map_eq.
Qed.

(** X20.  With a realm that parses, [refreshBasic] makes one GET, through
    the basic transport for the realm's host and the stored credential, to
    the realm with its query replaced by the encoded [scope] and [service];
    it touches neither the transport nor the request.  A transport error
    is returned as it is, and a response with status 200 gives what reading
    its body gives. *)
Theorem refreshBasic_get s u :
  url_Parse (realm (this s)) = Ok u ->
  let query :=
    Values_Encode {[ "scope" := scopes (this s); "service" := [service (this s)] ]} in
  let target := URL_String (url.set_RawQuery query u) in
  let b := basicTransport (inner (this s)) (basic (this s)) (url.Host u) in
  trace (refreshBasic s).2 =
    trace s ++ [EvRefreshBasic; EvGet (url.Host u) target] /\
  this (refreshBasic s).2 = this s /\
  in_ (refreshBasic s).2 = in_ s /\
  world (refreshBasic s).2 = (Client_Get b target (world s)).2 /\
  (forall e w2, Client_Get b target (world s) = (Err e, w2) ->
     (refreshBasic s).1 = Err e) /\
  (forall resp w2, Client_Get b target (world s) = (Ok resp, w2) ->
     http.StatusCode resp = http.StatusOK ->
     (refreshBasic s).1 = ioutil.ReadAll resp).
Proof.
  intros Hrealm query target b. rewrite refreshBasic_eq, Hrealm. simpl.
  fold query target b.
  destruct (Client_Get b target (world s)) as [[resp|e] w2] eqn:Hget; simpl.
  - repeat split; try done. intros resp' w2' [= <- <-] H200.
    unfold checked, CheckError. by rewrite (bool_decide_eq_true_2 _ H200).
  - repeat split; try done. by intros e' w2' [= <- <-].
Qed.

End DispatcherMore.

(** ** The further properties at work *)

(** A registry name under [https]. *)
Lemma canonicalAddress_port_less_witness :
  IndexByteString "gcr.io" byte_colon = None /\
  canonicalAddress (transport password) "gcr.io" = "gcr.io:443".
Proof.
  split; [reflexivity |].
  apply (canonicalAddress_port_less (transport password) "gcr.io" eq_refl).
  reflexivity.
Defined.

(** A registry on port 5000. *)
Lemma canonicalAddress_explicit_port_witness :
  IndexByteString "localhost" byte_colon = None /\
  IndexByteString "5000" byte_colon = None /\
  canonicalAddress (transport password) "localhost:5000" = "localhost:5000".
Proof.
  split; [reflexivity |]. split; [reflexivity |].
  apply (canonicalAddress_explicit_port (transport password) "localhost" "5000"
           eq_refl eq_refl eq_refl eq_refl eq_refl eq_refl).
  discriminate.
Defined.

(** The loopback address of IPv6, bare and with a port. *)
Lemma canonicalAddress_v6_witness :
  2 <= CountString "::1" byte_colon /\
  canonicalAddress (transport password) "::1" = "[::1]:443" /\
  canonicalAddress (transport password) "[::1]:5000" = "[::1]:5000".
Proof.
  destruct (canonicalAddress_v6 (transport password) "::1") as [Hbare Hport].
  assert (Hcount : 2 <= CountString "::1" byte_colon) by (vm_compute; lia).
  split; [exact Hcount |]. split.
  - apply (Hbare Hcount). reflexivity.
  - apply (Hport "5000"); [vm_compute; lia | reflexivity ..].
Defined.

(** An IPv4 address with a port. *)
Lemma canonicalAddress_splits_witness :
  IndexByteString "127.0.0.1:5000" byte_lbrack = None /\
  IndexByteString "127.0.0.1:5000" byte_rbrack = None /\
  exists h p,
    net.SplitHostPort (canonicalAddress (transport password) "127.0.0.1:5000")
      = Ok (h, p) /\
    net.JoinHostPort h p = canonicalAddress (transport password) "127.0.0.1:5000".
Proof.
  split; [reflexivity |]. split; [reflexivity |].
  destruct (canonicalAddress_splits (transport password) "127.0.0.1:5000"
              eq_refl eq_refl) as (h & p & Hsplit & Hjoin & _).
  exists h, p. split; [exact Hsplit | exact Hjoin].
Defined.

(** The registry itself matches; so says the rule on names. *)
Lemma host_matches_port_less_witness :
  IndexByteString (http.Host (request "gcr.io")) byte_colon = None /\
  IndexByteString (name.RegistryStr (registry (transport password))) byte_colon
    = None /\
  host_matches (transport password) (request "gcr.io") = true.
Proof.
  split; [reflexivity |]. split; [reflexivity |].
  apply (host_matches_port_less (transport password) (request "gcr.io")
           eq_refl eq_refl eq_refl).
  left. reflexivity.
Defined.


(** Nothing answers: the error of the transport comes out. *)
Lemma RoundTrip_send_error_witness :
  sendRequest (fresh password [])
  = (Err (OtherError "connection refused"), (sendRequest (fresh password [])).2) /\
  (RoundTrip (fresh password [])).1 = Err (OtherError "connection refused").
Proof.
  assert (Hsend : sendRequest (fresh password []) =
            (Err (OtherError "connection refused"),
             (sendRequest (fresh password [])).2))
    by (vm_compute; reflexivity).
  split; [exact Hsend |].
  destruct (RoundTrip_send_error (fresh password []) _ _ Hsend) as [-> _].
  reflexivity.
Defined.

(** A request for a blob store, which answers 401: it is sent twice and
    never with the token. *)
Lemma RoundTrip_no_token_elsewhere_witness :
  host_matches (transport password) (request "storage.example.com") = false /\
  exists evs,
    trace (RoundTrip (start password "storage.example.com"
             [answer 401 ""; answer 200 "{token:B}"; answer 200 "blob"])).2 = evs /\
    forall r, EvRoundTrip r ∈ evs ->
      http.Header_ r !! "Authorization" = None /\
      url.Scheme (http.URL r) = "http".
Proof.
  assert (Hno : host_matches (transport password) (request "storage.example.com")
                = false) by (vm_compute; reflexivity).
  split; [exact Hno |].
  destruct (RoundTrip_no_token_elsewhere
              (start password "storage.example.com"
                 [answer 401 ""; answer 200 "{token:B}"; answer 200 "blob"]) Hno)
    as (evs & Htr & Hreq).
  exists evs. split; [exact Htr | exact Hreq].
Defined.

(** The second send carries the token just obtained. *)
Lemma RoundTrip_retry_token_witness :
  sendRequest expired
  = (Ok (http.mkResponse 401 "" None), (sendRequest expired).2) /\
  exists sent,
    http.Header_ sent !! "Authorization" = Some ["Bearer B"] /\
    url.Scheme (http.URL sent) = "https".
Proof.
  assert (Hsend : sendRequest expired =
            (Ok (http.mkResponse 401 "" None), (sendRequest expired).2))
    by (vm_compute; reflexivity).
  assert (Hrefresh : refresh (sendRequest expired).2 =
            (Ok tt, (refresh (sendRequest expired).2).2))
    by (vm_compute; reflexivity).
  assert (Hmatch : host_matches (this expired) (in_ expired) = true)
    by (vm_compute; reflexivity).
  split; [exact Hsend |].
  destruct (RoundTrip_retry_token expired _ _ _ Hsend eq_refl Hrefresh Hmatch)
    as (sent & _ & Hauth & Hscheme).
  exists sent. split; [exact Hauth | exact Hscheme].
Defined.

(** The credential helper fails after the 401. *)
Lemma RoundTrip_provider_error_witness :
  sendRequest (fresh broken [answer 401 ""])
  = (Ok (http.mkResponse 401 "" None), (sendRequest (fresh broken [answer 401 ""])).2) /\
  (RoundTrip (fresh broken [answer 401 ""])).1
  = Err (OtherError "credential helper failed").
Proof.
  assert (Hsend : sendRequest (fresh broken [answer 401 ""]) =
            (Ok (http.mkResponse 401 "" None),
             (sendRequest (fresh broken [answer 401 ""])).2))
    by (vm_compute; reflexivity).
  split; [exact Hsend |].
  rewrite (RoundTrip_provider_error (fresh broken [answer 401 ""]) _ _
             (OtherError "credential helper failed") [] Hsend eq_refl).
  - reflexivity.
  - reflexivity.
Defined.

(** A realm without a scheme: the token service is never called. *)
Lemma refresh_malformed_realm_witness :
  url_Parse (realm (this astray)) = Err (OtherError "missing protocol scheme") /\
  exists e' evs,
    (refresh astray).1 = Err e' /\
    trace (refresh astray).2 = evs /\
    Forall (fun ev => is_network ev = false) evs.
Proof.
  assert (Hrealm : url_Parse (realm (this astray))
                   = Err (OtherError "missing protocol scheme"))
    by reflexivity.
  split; [exact Hrealm |].
  destruct (refresh_malformed_realm astray _ Hrealm)
    as (e' & evs & Herr & Htr & Hnet & _).
  exists e', evs. split; [exact Herr |]. split; [exact Htr | exact Hnet].
Defined.

(** The credential helper fails: nothing is posted. *)
Lemma refreshOauth_errors_witness :
  basic (this (fresh broken [])) (world (fresh broken []))
  = (Err (OtherError "credential helper failed"), []) /\
  trace (refreshOauth (fresh broken [])).2 = [EvRefreshOauth].
Proof.
  split; [reflexivity |].
  destruct (refreshOauth_errors (fresh broken [])) as [Hprovider _].
  rewrite (Hprovider (OtherError "credential helper failed") []).
  - reflexivity.
  - reflexivity.
Defined.

(** An identity token next to a password: the password is not posted. *)
Lemma refreshOauth_refresh_grant_witness :
  exists v,
    trace (refreshOauth
             (start (authn.FromConfig (config "user" "secret" "idtoken"))
                "gcr.io" [answer 200 "{token:B}"])).2
    = [EvRefreshOauth; EvPostForm "https://auth.gcr.io/token" v] /\
    v !! "refresh_token" = Some ["idtoken"] /\
    dom v = {[ "scope"; "service"; "client_id"; "grant_type"; "refresh_token" ]}.
Proof.
  assert (Hrealm :
    url_Parse (realm (this (start (authn.FromConfig (config "user" "secret" "idtoken"))
                              "gcr.io" [answer 200 "{token:B}"])))
    = Ok realm_url) by reflexivity.
  destruct (refreshOauth_refresh_grant
              (start (authn.FromConfig (config "user" "secret" "idtoken"))
                 "gcr.io" [answer 200 "{token:B}"])
              (config "user" "secret" "idtoken") [answer 200 "{token:B}"]
              realm_url eq_refl Hrealm)
    as (v & Htr & Hdom & _ & Htoken & _).
  - discriminate.
  - exists v. split; [exact Htr |]. split; [exact Htoken | exact Hdom].
Defined.

(** A username and a password. *)
Lemma refreshOauth_password_grant_witness :
  exists v,
    trace (refreshOauth (fresh password [answer 200 "{token:B}"])).2
    = [EvRefreshOauth; EvPostForm "https://auth.gcr.io/token" v] /\
    v !! "grant_type" = Some ["password"] /\
    v !! "username" = Some ["user"] /\
    v !! "password" = Some ["secret"].
Proof.
  assert (Hrealm :
    url_Parse (realm (this (fresh password [answer 200 "{token:B}"])))
    = Ok realm_url) by reflexivity.
  destruct (refreshOauth_password_grant
              (fresh password [answer 200 "{token:B}"])
              (config "user" "secret" "") [answer 200 "{token:B}"]
              realm_url eq_refl Hrealm eq_refl)
    as (v & Htr & _ & Hgrant & Huser & Hpass & _).
  - discriminate.
  - discriminate.
  - exists v. split; [exact Htr |]. split; [exact Hgrant |].
    split; [exact Huser | exact Hpass].
Defined.

(** The basic flow against the realm of [gcr.io]. *)
Lemma refreshBasic_get_witness :
  url_Parse (realm (this (fresh password [answer 200 "{token:B}"])))
  = Ok realm_url /\
  trace (refreshBasic (fresh password [answer 200 "{token:B}"])).2
  = [EvRefreshBasic;
     EvGet "auth.gcr.io"
       "https://auth.gcr.io/token?scope=repository:foo:pull&service=gcr.io"] /\
  (refreshBasic (fresh password [answer 200 "{token:B}"])).1 = Ok "{token:B}".
Proof.
  assert (Hrealm :
    url_Parse (realm (this (fresh password [answer 200 "{token:B}"])))
    = Ok realm_url) by reflexivity.
  split; [exact Hrealm |].
  destruct (refreshBasic_get (fresh password [answer 200 "{token:B}"])
              realm_url Hrealm) as (Htr & _ & _ & _ & _ & Hok).
  split.
  - etrans; [exact Htr |]. vm_compute. reflexivity.
  - apply (Hok (http.mkResponse 200 "{token:B}" None) []); reflexivity.
Defined.
